(** * Document QA core: text extraction, normalisation and LLM orchestration

    A shallow embedding of [utils/pdf_extractor.py], [utils/llm_client.py]
    and [config.py].  Python [str] values are sequences of Unicode code
    points, [bytes] values are sequences of bytes, tuples are products.
    What the interpreter and the third-party libraries provide (codecs, the
    file system, the PDF and DOCX parsers, the HTTP transport, float
    formatting, Unicode case mapping) is gathered in records of functions
    the embedded code is parameterised by. *)

From Stdlib Require Import List Bool Arith NArith ZArith Lia.
From Stdlib.Strings Require Import Ascii String Byte.
From Stdlib Require Import DecimalString.
From Stdlib Require QArith.
Import ListNotations.

Set Implicit Arguments.
Open Scope list_scope.

(** ** Python strings *)

Module PyStr.

(** A [str] is a sequence of Unicode code points. *)
Abbreviation codepoint := N (only parsing).
Abbreviation pystr := (list N) (only parsing).

(** An ASCII literal of the source as a Python string. *)
Definition py (s : string) : pystr :=
  map N_of_ascii (list_ascii_of_string s).

Definition nl : codepoint := 10%N.
Definition space : codepoint := 32%N.
Definition dquote : codepoint := 34%N.

(** [U+274C], the cross mark every failure string of the client starts with. *)
Definition cross_mark : codepoint := 10060%N.

(** [str(n)] for an [int]. *)
Definition str_of_Z (z : Z) : pystr :=
  py (NilZero.string_of_int (Z.to_int z)).

(** The characters [str.strip()] and [str.split()] treat as whitespace
    (CPython's [Py_UNICODE_ISSPACE]). *)
Definition isspace (c : codepoint) : bool :=
  ((9 <=? c) && (c <=? 13) || (28 <=? c) && (c <=? 32)
   || (c =? 133) || (c =? 160) || (c =? 5760)
   || (8192 <=? c) && (c <=? 8202)
   || (c =? 8232) || (c =? 8233) || (c =? 8239) || (c =? 8287)
   || (c =? 12288))%N.

Fixpoint str_eqb (a b : pystr) : bool :=
  match a, b with
  | [], [] => true
  | x :: a', y :: b' => (x =? y)%N && str_eqb a' b'
  | _, _ => false
  end.

Fixpoint startswith (p s : pystr) : bool :=
  match p, s with
  | [], _ => true
  | x :: p', y :: s' => (x =? y)%N && startswith p' s'
  | _ :: _, [] => false
  end.

(** [sub in s] *)
Fixpoint contains (sub s : pystr) : bool :=
  startswith sub s ||
  match s with
  | [] => false
  | _ :: t => contains sub t
  end.

(** [x in l] for a list of strings. *)
Definition str_in (x : pystr) (l : list pystr) : bool := existsb (str_eqb x) l.

(** [s.lstrip()], [s.rstrip()] and [s.strip()]. *)
Fixpoint lstrip (s : pystr) : pystr :=
  match s with
  | [] => []
  | c :: t => if isspace c then lstrip t else s
  end.

Fixpoint rstrip (s : pystr) : pystr :=
  match s with
  | [] => []
  | c :: t =>
      match rstrip t with
      | [] => if isspace c then [] else [c]
      | r => c :: r
      end
  end.

Definition strip (s : pystr) : pystr := rstrip (lstrip s).

(** [s.split(sep)] for a non-empty [sep]: the separators are found left to
    right and do not overlap.  [skip] counts the characters of a separator
    that has been recognised and is still to be consumed. *)
Fixpoint split_go (sep : pystr) (skip : nat) (s : pystr) : list pystr :=
  match s with
  | [] => [[]]
  | c :: t =>
      match skip with
      | S k => split_go sep k t
      | O =>
          if startswith sep s then [] :: split_go sep (List.length sep - 1) t
          else
            match split_go sep 0 t with
            | seg :: rest => (c :: seg) :: rest
            | [] => [[c]]
            end
      end
  end.

Definition split (sep s : pystr) : list pystr := split_go sep 0 s.

(** [s.split()]: the maximal runs of non-whitespace characters. *)
Fixpoint split_ws (s : pystr) : list pystr :=
  match s with
  | [] => []
  | c :: t =>
      if isspace c then split_ws t
      else
        match t with
        | [] => [[c]]
        | c' :: _ =>
            if isspace c' then [c] :: split_ws t
            else
              match split_ws t with
              | w :: ws => (c :: w) :: ws
              | [] => [[c]]
              end
        end
  end.

(** [sep.join(l)] *)
Fixpoint join (sep : pystr) (l : list pystr) : pystr :=
  match l with
  | [] => []
  | [x] => x
  | x :: rest => x ++ sep ++ join sep rest
  end.

(** [re.sub(r' +', ' ', s)]: every maximal run of spaces becomes one space;
    a space is dropped exactly when another space follows it. *)
Fixpoint sub_spaces (s : pystr) : pystr :=
  match s with
  | [] => []
  | c :: t =>
      if (c =? space)%N then
        match t with
        | c' :: _ => if (c' =? space)%N then sub_spaces t else c :: sub_spaces t
        | [] => [c]
        end
      else c :: sub_spaces t
  end.

(** Truth value of an optional string argument: [None] and the empty string are false. *)
Definition truthy (A : Type) (o : option (list A)) : bool :=
  match o with
  | Some (_ :: _) => true
  | _ => false
  end.

(** [repr] of a string without quotes, backslashes or control characters,
    and [str] of a list of such strings, as in an f-string. *)
Definition repr_str (s : pystr) : pystr := py "'" ++ s ++ py "'".
Definition str_of_list (l : list pystr) : pystr :=
  py "[" ++ join (py ", ") (map repr_str l) ++ py "]".

End PyStr.

Import PyStr.

(** ** config.py *)

Module Config.

(** [DEFAULT_MODEL], [MAX_TOKENS], [TEMPERATURE] *)
Definition DEFAULT_MODEL : pystr := py "meta-llama/Meta-Llama-3.1-8B-Instruct-Turbo".
Definition MAX_TOKENS : Z := 4000.
Definition TEMPERATURE : QArith_base.Q := QArith_base.Qmake 1 10.

(** [MAX_FILE_SIZE = 10 * 1024 * 1024] *)
Definition MAX_FILE_SIZE : N := 10 * 1024 * 1024.

(** [SUPPORTED_FILE_TYPES = ['pdf', 'txt', 'docx']] *)
Definition SUPPORTED_FILE_TYPES : list pystr := [py "pdf"; py "txt"; py "docx"].

End Config.

(** ** utils/pdf_extractor.py *)

Definition bytes := list byte.

(** What a call into the interpreter or a library comes back with: a value,
    or an exception, of which the code only ever uses [str(e)]. *)
Inductive outcome (A : Type) : Type :=
| Returned (a : A)
| Raised (msg : pystr).
Arguments Returned {A} a.
Arguments Raised {A} msg.

(** The encodings [_extract_txt_text] tries. *)
Inductive encoding := utf_8 | latin_1 | ascii_enc | cp1252.

(** What the extractor calls outside the repository. *)
Record Runtime := {
  (** [s.lower()], Unicode case mapping *)
  str_lower : pystr -> pystr;
  (** [b.decode(enc)]; [None] is [UnicodeDecodeError] *)
  decode : encoding -> bytes -> option pystr;
  (** [open(path, 'r', encoding='utf-8').read()] *)
  read_text_file : pystr -> outcome pystr;
  (** [PyPDF2.PdfReader] over a file opened from a path, over [BytesIO(content)]:
      the pages, each with what [extract_text()] does on it *)
  pdf_pages_of_path : pystr -> outcome (list (outcome pystr));
  pdf_pages_of_bytes : bytes -> outcome (list (outcome pystr));
  (** [docx.Document] over a path, over [BytesIO(content)]: the paragraphs,
      each with what [.text] does on it *)
  docx_paragraphs_of_path : pystr -> outcome (list (outcome pystr));
  docx_paragraphs_of_bytes : bytes -> outcome (list (outcome pystr));
  (** [f"{n / (1024 * 1024):.2f}"] and [f"{n / (1024 * 1024)}"] *)
  format_mb_2f : N -> pystr;
  format_mb : N -> pystr;
  (** [str(e)] of the [UnboundLocalError] for the local [text] *)
  unbound_text_msg : pystr
}.

(** The tuple [(success, text, error_message)]. *)
Definition ExtractionResult := (bool * pystr * pystr)%type.
Definition ok (r : ExtractionResult) : bool := fst (fst r).
Definition text_of (r : ExtractionResult) : pystr := snd (fst r).
Definition error_of (r : ExtractionResult) : pystr := snd r.

(** [_clean_text] *)
Definition _clean_text (text : pystr) : pystr :=
  match text with
  | [] => []
  | _ =>
      let lines := split [nl] text in
      let cleaned_lines :=
        filter (fun l => negb (str_eqb l [])) (map strip lines) in
      let cleaned_text := join [nl] cleaned_lines in
      sub_spaces cleaned_text
  end.

(** [get_text_stats] *)
Record TextStats := {
  character_count : nat;
  word_count : nat;
  line_count : nat;
  paragraph_count : nat
}.

Definition get_text_stats (text : pystr) : TextStats :=
  match text with
  | [] =>
      {| character_count := 0; word_count := 0;
         line_count := 0; paragraph_count := 0 |}
  | _ =>
      {| character_count := List.length text;
         word_count := List.length (split_ws text);
         line_count := List.length (split [nl] text);
         paragraph_count :=
           List.length
             (filter (fun p => negb (str_eqb (strip p) []))
                     (split [nl; nl] text)) |}
  end.

Section Extractor.

Variable rt : Runtime.

(** The loops [for page in pdf_reader.pages: text += page.extract_text() + "\n"]
    and [for paragraph in doc.paragraphs: text += paragraph.text + "\n"];
    the first exception leaves the loop. *)
Fixpoint accumulate (text : pystr) (items : list (outcome pystr)) : outcome pystr :=
  match items with
  | [] => Returned text
  | Returned t :: rest => accumulate (text ++ t ++ [nl]) rest
  | Raised e :: _ => Raised e
  end.

(** The common tail of the three extractors: clean, refuse text that is
    blank, return the cleaned text otherwise. *)
Definition finish (no_text : pystr) (text : pystr) : ExtractionResult :=
  let text := _clean_text text in
  match strip text with
  | [] => (false, [], no_text)
  | _ => (true, text, [])
  end.

(** [_extract_pdf_text], up to the cleaning: the raw text, or the result
    the [except] clause returns. *)
Definition _read_pdf (file_path : option pystr) (file_content : option bytes)
  : ExtractionResult + pystr :=
  let pages :=
    match file_path, file_content with
    | Some (c :: p), _ => pdf_pages_of_path rt (c :: p)
    | _, Some (b :: bs) => pdf_pages_of_bytes rt (b :: bs)
    | _, _ => Returned []
    end in
  match pages with
  | Raised e => inl (false, [], py "Error reading PDF: " ++ e)
  | Returned ps =>
      match accumulate [] ps with
      | Raised e => inl (false, [], py "Error reading PDF: " ++ e)
      | Returned text => inr text
      end
  end.

Definition _extract_pdf_text (file_path : option pystr) (file_content : option bytes)
  : ExtractionResult :=
  match _read_pdf file_path file_content with
  | inl r => r
  | inr text => finish (py "No text found in PDF file") text
  end.

(** The [for encoding in [...]: try ... break / except: continue / else] loop. *)
Fixpoint first_decodable (encs : list encoding) (b : bytes) : option pystr :=
  match encs with
  | [] => None
  | e :: rest =>
      match decode rt e b with
      | Some t => Some t
      | None => first_decodable rest b
      end
  end.

(** [_extract_txt_text], up to the cleaning.  With neither argument the
    local [text] is unbound when it is read. *)
Definition _read_txt (file_path : option pystr) (file_content : option bytes)
  : ExtractionResult + pystr :=
  match file_path, file_content with
  | Some (c :: p), _ =>
      match read_text_file rt (c :: p) with
      | Returned text => inr text
      | Raised e => inl (false, [], py "Error reading TXT file: " ++ e)
      end
  | _, Some (b :: bs) =>
      match decode rt utf_8 (b :: bs) with
      | Some text => inr text
      | None =>
          match first_decodable [latin_1; ascii_enc; cp1252] (b :: bs) with
          | Some text => inr text
          | None => inl (false, [], py "Unable to decode text file with common encodings")
          end
      end
  | _, _ => inl (false, [], py "Error reading TXT file: " ++ unbound_text_msg rt)
  end.

Definition _extract_txt_text (file_path : option pystr) (file_content : option bytes)
  : ExtractionResult :=
  match _read_txt file_path file_content with
  | inl r => r
  | inr text => finish (py "No text found in file") text
  end.

(** [_extract_docx_text], up to the cleaning. *)
Definition _read_docx (file_path : option pystr) (file_content : option bytes)
  : ExtractionResult + pystr :=
  let paragraphs :=
    match file_path, file_content with
    | Some (c :: p), _ => docx_paragraphs_of_path rt (c :: p)
    | _, Some (b :: bs) => docx_paragraphs_of_bytes rt (b :: bs)
    | _, _ => Returned []
    end in
  match paragraphs with
  | Raised e => inl (false, [], py "Error reading DOCX file: " ++ e)
  | Returned ps =>
      match accumulate [] ps with
      | Raised e => inl (false, [], py "Error reading DOCX file: " ++ e)
      | Returned text => inr text
      end
  end.

Definition _extract_docx_text (file_path : option pystr) (file_content : option bytes)
  : ExtractionResult :=
  match _read_docx file_path file_content with
  | inl r => r
  | inr text => finish (py "No text found in DOCX file") text
  end.

(** "Determine file type": the extension of the path, the declared type of
    an upload, or nothing. *)
Definition determine_file_type
    (file_path : option pystr) (file_content : option bytes)
    (file_type : option pystr) : option pystr :=
  match file_path, file_content, file_type with
  | Some (c :: p), _, _ => Some (str_lower rt (last (split (py ".") (c :: p)) []))
  | _, Some (_ :: _), Some (t :: ft) => Some (str_lower rt (t :: ft))
  | _, _, _ => None
  end.

(** [len(b)] *)
Definition len (A : Type) (l : list A) : N := N.of_nat (List.length l).

(** "Check file size if content is provided" *)
Definition too_large (file_content : option bytes) : bool :=
  match file_content with
  | Some (b :: bs) => (Config.MAX_FILE_SIZE <? len (b :: bs))%N
  | _ => false
  end.

(** [extract_text_from_file].  For [str] and [bytes] arguments nothing in
    its own body raises, the three extractors catch what the libraries
    raise, so its [except] clause is not entered. *)
Definition extract_text_from_file
    (file_path : option pystr) (file_content : option bytes)
    (file_type : option pystr) : ExtractionResult :=
  match determine_file_type file_path file_content file_type with
  | None => (false, [], py "No file provided or file type not specified")
  | Some file_type =>
      if negb (str_in file_type Config.SUPPORTED_FILE_TYPES) then
        (false, [],
         py "Unsupported file type: " ++ file_type ++ py ". Supported types: "
           ++ str_of_list Config.SUPPORTED_FILE_TYPES)
      else if too_large file_content then
        (false, [],
         py "File too large: "
           ++ format_mb_2f rt (len (match file_content with Some b => b | None => [] end))
           ++ py "MB. Maximum size: " ++ format_mb rt Config.MAX_FILE_SIZE ++ py "MB")
      else if str_eqb file_type (py "pdf") then
        _extract_pdf_text file_path file_content
      else if str_eqb file_type (py "txt") then
        _extract_txt_text file_path file_content
      else if str_eqb file_type (py "docx") then
        _extract_docx_text file_path file_content
      else
        (false, [], py "Extraction method not implemented for " ++ file_type)
  end.

End Extractor.

(** ** utils/llm_client.py *)

Module LLM.

Import QArith_base.

(** The JSON body of a chat-completion request. *)
Record Payload := {
  model : pystr;
  messages : list (pystr * pystr);   (* role, content *)
  temperature : Q;
  max_tokens : Z
}.

(** One [requests.post(url, headers=..., json=..., timeout=...)]. *)
Record Request := {
  url : pystr;
  headers_of : list (pystr * pystr);
  json : Payload;
  timeout : Z
}.

(** What the code reads of a response: [status_code], [text], and what
    [response.json()['choices'][0]['message']['content']] followed by
    [len(result)] does. *)
Record Response := {
  status_code : Z;
  text : pystr;
  content : outcome pystr
}.

(** The remote endpoint as seen through [requests.post]. *)
Definition Transport := Request -> outcome Response.

(** The attributes [__init__] sets.  [client] is [True] or [None]; in the
    source the other three are only set, and only read, when it is [True]. *)
Record LLMClient := {
  api_key : option pystr;
  client : bool;
  api_url : pystr;
  headers : list (pystr * pystr);
  default_model : pystr
}.

(** [__init__]; [config_key] is [Config.TOGETHER_API_KEY], read from the
    process environment. *)
Definition __init__ (config_key : option pystr) (api_key : option pystr) : LLMClient :=
  let key := if truthy api_key then api_key else config_key in
  match key with
  | Some (c :: k) =>
      {| api_key := key;
         client := true;
         api_url := py "https://api.together.xyz/v1/chat/completions";
         headers := [(py "Authorization", py "Bearer " ++ (c :: k));
                     (py "Content-Type", py "application/json")];
         default_model := Config.DEFAULT_MODEL |}
  | _ =>
      {| api_key := key; client := false;
         api_url := []; headers := []; default_model := [] |}
  end.

(** A value of the operation together with the requests it sent, in order. *)
Definition IO (A : Type) : Type := (A * list Request)%type.
Definition ret (A : Type) (a : A) : IO A := (a, []).
Definition post (tr : Transport) (r : Request) : IO (outcome Response) := (tr r, [r]).
Definition bind (A B : Type) (m : IO A) (k : A -> IO B) : IO B :=
  let (a, sent) := m in
  let (b, sent') := k a in
  (b, sent ++ sent').

Notation "x <- m ;; k" := (bind m (fun x => k))
  (at level 61, m at next level, right associativity).

(** [x or default] on the three optional arguments. *)
Definition or_str (x : option pystr) (d : pystr) : pystr :=
  match x with
  | Some (c :: s) => c :: s
  | _ => d
  end.

Definition or_float (x : option Q) (d : Q) : Q :=
  match x with
  | Some q => if (Qnum q =? 0)%Z then d else q
  | None => d
  end.

Definition or_int (x : option Z) (d : Z) : Z :=
  match x with
  | Some z => if (z =? 0)%Z then d else z
  | None => d
  end.

Section Client.

Variable tr : Transport.
Variable self : LLMClient.

(** The request [generate_response] builds. *)
Definition request_of (prompt : pystr) (model : option pystr)
    (temperature : option Q) (max_tokens : option Z) : Request :=
  let model := or_str model (default_model self) in
  let temperature := or_float temperature Config.TEMPERATURE in
  let max_tokens := or_int max_tokens Config.MAX_TOKENS in
  {| url := api_url self;
     headers_of := headers self;
     json := {| model := model;
                messages := [(py "user", prompt)];
                temperature := temperature;
                max_tokens := max_tokens |};
     timeout := 30 |}.

(** [generate_response] *)
Definition generate_response (prompt : pystr) (model : option pystr)
    (temperature : option Q) (max_tokens : option Z) : IO pystr :=
  if negb (client self) then
    ret ([cross_mark] ++ py " API client not initialized, please check API key configuration")
  else
    response <- post tr (request_of prompt model temperature max_tokens) ;;
    match response with
    | Raised e => ret ([cross_mark; space] ++ py "API call failed: " ++ e)
    | Returned response =>
        if (status_code response =? 200)%Z then
          match content response with
          | Returned result => ret result
          | Raised e => ret ([cross_mark; space] ++ py "API call failed: " ++ e)
          end
        else
          ret ([cross_mark; space] ++ py "API request failed with status "
                 ++ str_of_Z (status_code response) ++ py ": " ++ text response)
    end.

(** [summarize_text]; the caller's [max_length] defaults to 200. *)
Definition summarize_text (text : pystr) (max_length : Z) : IO pystr :=
  if negb (client self) then
    ret ([cross_mark] ++ py " Cannot generate summary: API client not initialized")
  else
    let prompt :=
      [nl] ++ py "Please generate a concise summary of the following text, no more than "
        ++ str_of_Z max_length ++ py " words:" ++ [nl; nl]
        ++ py "Text content:" ++ [nl] ++ text ++ [nl; nl]
        ++ py "Summary:" ++ [nl] in
    generate_response prompt None None (Some (max_length + 50)%Z).

(** [answer_question] *)
Definition answer_question (context question : pystr) : IO pystr :=
  if negb (client self) then
    ret ([cross_mark] ++ py " Cannot answer question: API client not initialized")
  else
    let prompt :=
      [nl] ++ py "Based on the following document content, please answer the user's question. If the document doesn't contain relevant information, please state "
        ++ [dquote] ++ py "No relevant information found in the document." ++ [dquote]
        ++ [nl; nl] ++ py "Document content:" ++ [nl] ++ context ++ [nl; nl]
        ++ py "User question: " ++ question ++ [nl; nl]
        ++ py "Answer:" ++ [nl] in
    generate_response prompt None None None.

(** [test_connection]; [generate_response] raises nothing, so the
    [except] clause is not entered. *)
Definition test_connection : IO (bool * pystr) :=
  if negb (client self) then
    ret (false, py "API client not initialized")
  else
    response <-
      generate_response
        (py "Please reply 'Connection test successful' to confirm the API is working.")
        None None (Some 50%Z) ;;
    if negb (contains [cross_mark] response) then ret (true, response)
    else ret (false, response).

End Client.

End LLM.

(** ** app.py *)

Module App.

Import LLM.

(** An entry of [st.session_state.chat_history]: the dictionaries of type
    "summary" and of type "qa". *)
Inductive ChatEntry :=
| SummaryEntry (content timestamp : pystr)
| QAEntry (question answer timestamp : pystr).

(** [st.session_state]; [document_stats] is [{}] until a document has been
    extracted. *)
Record Session := {
  extracted_text : pystr;
  document_stats : option TextStats;
  chat_history : list ChatEntry
}.

(** "Initialize session state" *)
Definition initial_session : Session :=
  {| extracted_text := []; document_stats := None; chat_history := [] |}.

(** A button pressed in one run of [main], with what the widgets and the
    clock hold at that moment. *)
Inductive Event :=
| ExtractText (name : pystr) (data : bytes)
| GenerateSummary (summary_length : Z) (now : pystr)
| AskQuestion (user_question : pystr) (now : pystr)
| ClearHistory.

Section Main.

Variable rt : Runtime.
Variable tr : Transport.
(** [Config.TOGETHER_API_KEY] *)
Variable config_key : option pystr.

(** The "Extract Text" button. *)
Definition on_extract (name : pystr) (data : bytes) (s : Session) : Session :=
  let file_type := str_lower rt (last (split (py ".") name) []) in
  let '(success, text, error) :=
    extract_text_from_file rt None (Some data) (Some file_type) in
  if success then
    {| extracted_text := text;
       document_stats := Some (get_text_stats text);
       chat_history := chat_history s |}
  else s.

(** The "Generate Summary" button, shown once there is extracted text. *)
Definition on_summary (summary_length : Z) (now : pystr) (s : Session) : IO Session :=
  match extracted_text s with
  | [] => ret s
  | _ =>
      summary <- summarize_text tr (__init__ config_key None)
                   (extracted_text s) summary_length ;;
      if negb (contains [cross_mark] summary) then
        ret {| extracted_text := extracted_text s;
               document_stats := document_stats s;
               chat_history := chat_history s ++ [SummaryEntry summary now] |}
      else ret s
  end.

(** The "Ask Question" button, with a non-empty question. *)
Definition on_ask (user_question now : pystr) (s : Session) : IO Session :=
  match extracted_text s, user_question with
  | _ :: _, _ :: _ =>
      answer <- answer_question tr (__init__ config_key None)
                  (extracted_text s) user_question ;;
      if negb (contains [cross_mark] answer) then
        ret {| extracted_text := extracted_text s;
               document_stats := document_stats s;
               chat_history := chat_history s ++ [QAEntry user_question answer now] |}
      else ret s
  | _, _ => ret s
  end.

(** The "Clear History" button, shown while there is text and history. *)
Definition on_clear (s : Session) : Session :=
  match extracted_text s, chat_history s with
  | _ :: _, _ :: _ =>
      {| extracted_text := extracted_text s;
         document_stats := document_stats s;
         chat_history := [] |}
  | _, _ => s
  end.

(** One run of [main] with one button pressed. *)
Definition step (ev : Event) (s : Session) : IO Session :=
  match ev with
  | ExtractText name data => ret (on_extract name data s)
  | GenerateSummary n now => on_summary n now s
  | AskQuestion q now => on_ask q now s
  | ClearHistory => ret (on_clear s)
  end.

(** A session: the runs of [main], one after the other. *)
Fixpoint run (evs : list Event) (s : Session) : IO Session :=
  match evs with
  | [] => ret s
  | ev :: rest => s' <- step ev s ;; run rest s'
  end.

End Main.

End App.

(** ** Vocabulary of the properties *)

(** The invariant of an extraction result: a success carries text, a
    failure carries a message, and never both. *)
Definition is_success (r : ExtractionResult) : Prop :=
  ok r = true /\ text_of r <> [].
Definition is_failure (r : ExtractionResult) : Prop :=
  ok r = false /\ error_of r <> [].
Definition ExtractionResult_invariant (r : ExtractionResult) : Prop :=
  (is_success r /\ ~ is_failure r) \/ (is_failure r /\ ~ is_success r).

(** Text that is empty or made of whitespace only. *)
Definition blank (s : pystr) : bool := forallb isspace s.

(** A line as [_clean_text] leaves it: not empty, without a newline,
    without whitespace at either end, without two spaces in a row. *)
Definition tidy_line (l : pystr) : Prop :=
  l <> [] /\ ~ In nl l /\ lstrip l = l /\ rstrip l = l /\ sub_spaces l = l.

(** Reference counts for the statistics: a token starts at every
    non-whitespace character that begins the text or follows whitespace;
    the newline-delimited segments are one more than the newlines. *)
Fixpoint count_token_starts (after_space : bool) (s : pystr) : nat :=
  match s with
  | [] => 0
  | c :: t =>
      (if after_space && negb (isspace c) then 1 else 0)
      + count_token_starts (isspace c) t
  end.

Definition count_tokens (s : pystr) : nat := count_token_starts true s.

Definition count_segments (s : pystr) : nat := S (count_occ N.eq_dec s nl).

(** The sentinel test of the callers: the string starts with the cross mark. *)
Definition failure_marked (s : pystr) : bool := startswith [cross_mark] s.

(** *** A runtime to run the code on concrete inputs

    A test double for ASCII documents: ASCII case mapping; Latin-1 decodes
    every byte to its own code point, the other codecs decode ASCII bytes
    and refuse the rest; no file exists; the parsers yield the given
    document whatever they are handed. *)
Definition ascii_lower_char (c : codepoint) : codepoint :=
  if ((65 <=? c) && (c <=? 90))%N then (c + 32)%N else c.

Definition codepoints_of_bytes (b : bytes) : pystr := map Byte.to_N b.

Definition is_ascii_bytes (b : bytes) : bool :=
  forallb (fun x => (Byte.to_N x <? 128)%N) b.

Definition fixture_runtime (document : outcome (list (outcome pystr))) : Runtime :=
  {| str_lower := map ascii_lower_char;
     decode := fun enc b =>
       match enc with
       | latin_1 => Some (codepoints_of_bytes b)
       | _ => if is_ascii_bytes b then Some (codepoints_of_bytes b) else None
       end;
     read_text_file := fun _ => Raised (py "No such file or directory");
     pdf_pages_of_path := fun _ => document;
     pdf_pages_of_bytes := fun _ => document;
     docx_paragraphs_of_path := fun _ => document;
     docx_paragraphs_of_bytes := fun _ => document;
     format_mb_2f := fun _ => py "0.00";
     format_mb := fun _ => py "10.0";
     unbound_text_msg := py "local variable 'text' referenced before assignment" |}.

(** A runtime as [fixture_runtime] whose parsers take the pages of a
    document to be the Latin-1 text between form feeds. *)
Definition formfeed_pages (b : bytes) : outcome (list (outcome pystr)) :=
  Returned (map Returned (split [12%N] (codepoints_of_bytes b))).

Definition formfeed_runtime : Runtime :=
  let rt := fixture_runtime (Returned []) in
  {| str_lower := str_lower rt;
     decode := decode rt;
     read_text_file := read_text_file rt;
     pdf_pages_of_path := pdf_pages_of_path rt;
     pdf_pages_of_bytes := formfeed_pages;
     docx_paragraphs_of_path := docx_paragraphs_of_path rt;
     docx_paragraphs_of_bytes := formfeed_pages;
     format_mb_2f := format_mb_2f rt;
     format_mb := format_mb rt;
     unbound_text_msg := unbound_text_msg rt |}.

(** A document of two pages without extractable text. *)
Definition image_only_document : outcome (list (outcome pystr)) :=
  Returned [Returned []; Returned (py "  ")].

(** The bytes of an ASCII literal. *)
Definition bytes_of (s : string) : bytes := map byte_of_ascii (list_ascii_of_string s).

(** A transport that answers every request with status 200 and a fixed content. *)
Definition echo_transport (reply : pystr) : LLM.Transport :=
  fun _ => Returned {| LLM.status_code := 200; LLM.text := []; LLM.content := Returned reply |}.

(** The lines [_clean_text] keeps: the stripped lines that are not empty. *)
Definition kept_lines (s : pystr) : list pystr :=
  filter (fun l => negb (str_eqb l [])) (map strip (split [nl] s)).

(** The lines of a text with something other than whitespace on them. *)
Definition nonblank_lines (s : pystr) : list pystr :=
  filter (fun l => negb (blank l)) (split [nl] s).

(** The text of pages or paragraphs, each followed by a newline. *)
Definition pages_text (ts : list pystr) : pystr :=
  List.concat (map (fun t => t ++ [nl]) ts).

(** A chat entry whose model output passes the callers' test
    ["❌" not in ...]. *)
Definition entry_unmarked (e : App.ChatEntry) : Prop :=
  match e with
  | App.SummaryEntry c _ => contains [cross_mark] c = false
  | App.QAEntry _ a _ => contains [cross_mark] a = false
  end.

(** The session holds no document and no statistics, or a cleaned,
    non-blank document with its statistics. *)
Definition session_consistent (s : App.Session) : Prop :=
  match App.extracted_text s with
  | [] => App.document_stats s = None
  | t => _clean_text t = t /\ blank t = false
         /\ App.document_stats s = Some (get_text_stats t)
  end.


(** A success with cleaned, non-blank text and no message, or a failure
    without text. *)
Definition well_shaped (r : ExtractionResult) : Prop :=
  (ok r = true /\ error_of r = []
   /\ _clean_text (text_of r) = text_of r /\ blank (text_of r) = false)
  \/ (ok r = false /\ text_of r = []).

(** The message of the last branch of the dispatch is not the error. *)
Definition not_unimplemented (r : ExtractionResult) : Prop :=
  forall x, error_of r <> py "Extraction method not implemented for " ++ x.

(** The model output a chat entry records. *)
Definition entry_output (e : App.ChatEntry) : pystr :=
  match e with
  | App.SummaryEntry c _ => c
  | App.QAEntry _ a _ => a
  end.

(** The entry records, unmarked, the content of a 200 reply to one of the
    requests sent. *)
Definition from_reply (tr : LLM.Transport) (sent : list LLM.Request)
    (e : App.ChatEntry) : Prop :=
  entry_unmarked e
  /\ exists req resp,
       In req sent /\ tr req = Returned resp
       /\ LLM.status_code resp = 200%Z
       /\ LLM.content resp = Returned (entry_output e).

(** * Properties of the string operations *)

Unset Implicit Arguments.

Section StringFacts.

Lemma isspace_nl : isspace nl = true.
Proof. reflexivity. Qed.

Lemma isspace_space : isspace space = true.
Proof. reflexivity. Qed.

Lemma str_eqb_nil (l : pystr) : str_eqb l [] = true <-> l = [].
Proof. destruct l; simpl; split; intro H; congruence. Qed.

Lemma str_eqb_eq (a b : pystr) : str_eqb a b = true <-> a = b.
Proof.
  revert b; induction a as [|x a IH]; intros [|y b]; simpl;
    try (split; intro; congruence).
  rewrite andb_true_iff, N.eqb_eq, IH. split.
  - intros [-> ->]; reflexivity.
  - intro H; injection H; auto.
Qed.

Lemma negb_str_eqb_nil (l : pystr) : negb (str_eqb l []) = true <-> l <> [].
Proof.
  rewrite negb_true_iff, <- not_true_iff_false, str_eqb_nil. tauto.
Qed.

(** *** [lstrip], [rstrip], [strip] *)

Lemma lstrip_length (s : pystr) : List.length (lstrip s) <= List.length s.
Proof.
  induction s as [|c t IH]; simpl; [lia|].
  destruct (isspace c); simpl; lia.
Qed.

Lemma lstrip_fixed_head c t : lstrip (c :: t) = c :: t -> isspace c = false.
Proof.
  simpl. destruct (isspace c); [|reflexivity].
  intro H. pose proof (lstrip_length t) as L. rewrite H in L. simpl in L. lia.
Qed.

Lemma lstrip_head_nonspace c t : isspace c = false -> lstrip (c :: t) = c :: t.
Proof. intro H; simpl; rewrite H; reflexivity. Qed.

Lemma lstrip_idem (s : pystr) : lstrip (lstrip s) = lstrip s.
Proof.
  induction s as [|c t IH]; simpl; [reflexivity|].
  destruct (isspace c) eqn:E; [assumption|].
  simpl; rewrite E; reflexivity.
Qed.

Lemma lstrip_nil_blank (s : pystr) : lstrip s = [] <-> blank s = true.
Proof.
  induction s as [|c t IH]; simpl; [tauto|].
  destruct (isspace c); simpl; [assumption|].
  split; intro; discriminate.
Qed.

Lemma rstrip_cons_nonnil c t : rstrip t <> [] -> rstrip (c :: t) = c :: rstrip t.
Proof. simpl. destruct (rstrip t); [congruence|reflexivity]. Qed.

Lemma rstrip_idem (s : pystr) : rstrip (rstrip s) = rstrip s.
Proof.
  induction s as [|c t IH]; simpl; [reflexivity|].
  destruct (rstrip t) as [|r rs] eqn:E.
  - destruct (isspace c) eqn:Ec; simpl; [reflexivity|].
    rewrite Ec; reflexivity.
  - rewrite rstrip_cons_nonnil; rewrite IH; congruence.
Qed.

Lemma rstrip_head_nonspace c t : isspace c = false -> rstrip (c :: t) <> [].
Proof.
  intro H; simpl. destruct (rstrip t); [rewrite H|]; discriminate.
Qed.

Lemma rstrip_keeps_head c t :
  isspace c = false -> exists r, rstrip (c :: t) = c :: r.
Proof.
  intro H; simpl. destruct (rstrip t) as [|x r].
  - rewrite H; eauto.
  - eauto.
Qed.

Lemma lstrip_rstrip_fixed (s : pystr) :
  lstrip s = s -> lstrip (rstrip s) = rstrip s.
Proof.
  destruct s as [|c t]; [reflexivity|].
  intro H. apply lstrip_fixed_head in H.
  destruct (rstrip_keeps_head c t H) as [r ->].
  apply lstrip_head_nonspace; assumption.
Qed.

Lemma In_lstrip c (s : pystr) : In c (lstrip s) -> In c s.
Proof.
  induction s as [|x t IH]; simpl; [tauto|].
  destruct (isspace x); simpl; tauto.
Qed.

Lemma In_rstrip c (s : pystr) : In c (rstrip s) -> In c s.
Proof.
  induction s as [|x t IH]; simpl; [tauto|].
  destruct (rstrip t) as [|r rs].
  - destruct (isspace x); simpl; tauto.
  - simpl in *. tauto.
Qed.

Lemma In_strip c (s : pystr) : In c (strip s) -> In c s.
Proof. unfold strip; intro H; apply In_lstrip, In_rstrip, H. Qed.

Lemma rstrip_nil_blank (s : pystr) : rstrip s = [] <-> blank s = true.
Proof.
  induction s as [|c t IH]; simpl; [tauto|].
  destruct (rstrip t) as [|r rs].
  - destruct (isspace c); simpl.
    + tauto.
    + split; intro; discriminate.
  - split; [discriminate|]. rewrite andb_true_iff. intros [_ H].
    apply IH in H; discriminate.
Qed.

Lemma blank_lstrip (s : pystr) : blank (lstrip s) = blank s.
Proof.
  induction s as [|c t IH]; simpl; [reflexivity|].
  destruct (isspace c) eqn:E; simpl; [assumption|].
  rewrite E; reflexivity.
Qed.

(** [not s.strip()] holds exactly of the blank strings. *)
Lemma strip_nil_blank (s : pystr) : strip s = [] <-> blank s = true.
Proof. unfold strip. rewrite rstrip_nil_blank, blank_lstrip. tauto. Qed.

Lemma strip_nonnil (s : pystr) : strip s <> [] -> s <> [].
Proof. intros H ->. apply H; reflexivity. Qed.

Lemma strip_fixed (l : pystr) : lstrip l = l -> rstrip l = l -> strip l = l.
Proof. unfold strip; intros -> ->; reflexivity. Qed.

End StringFacts.

(** *** [re.sub(r' +', ' ', s)] *)

Section SubSpaces.

Lemma sub_spaces_nonspace c t :
  (c =? space)%N = false -> sub_spaces (c :: t) = c :: sub_spaces t.
Proof. intro H; simpl; rewrite H; reflexivity. Qed.

Lemma sub_spaces_hd (s : pystr) : hd_error (sub_spaces s) = hd_error s.
Proof.
  induction s as [|c t IH]; [reflexivity|].
  simpl. destruct (c =? space)%N eqn:Ec; [|reflexivity].
  destruct t as [|c' t']; [reflexivity|].
  destruct (c' =? space)%N eqn:Ec'; [|reflexivity].
  rewrite IH. simpl.
  apply N.eqb_eq in Ec, Ec'. congruence.
Qed.

Lemma sub_spaces_nil (s : pystr) : sub_spaces s = [] -> s = [].
Proof.
  intro H. pose proof (sub_spaces_hd s) as E. rewrite H in E.
  destruct s; [reflexivity|discriminate].
Qed.

Lemma In_sub_spaces c (s : pystr) : In c (sub_spaces s) -> In c s.
Proof.
  induction s as [|x t IH]; [tauto|].
  simpl. destruct (x =? space)%N.
  - destruct t as [|c' t']; [simpl; tauto|].
    destruct (c' =? space)%N; [right; auto|].
    intros [->|H]; [left; reflexivity|right; auto].
  - intros [->|H]; [left; reflexivity|right; auto].
Qed.

Lemma sub_spaces_cons2 c c' t :
  sub_spaces (c :: c' :: t) =
  if ((c =? space) && (c' =? space))%N then sub_spaces (c' :: t)
  else c :: sub_spaces (c' :: t).
Proof.
  destruct (c =? space)%N eqn:Ec, (c' =? space)%N eqn:Ec';
    simpl; rewrite Ec, ?Ec'; reflexivity.
Qed.

Lemma sub_spaces_idem (s : pystr) : sub_spaces (sub_spaces s) = sub_spaces s.
Proof.
  induction s as [|c t IH]; [reflexivity|].
  destruct t as [|c' t'].
  - simpl. destruct (c =? space)%N eqn:Ec; simpl; rewrite Ec; reflexivity.
  - rewrite sub_spaces_cons2.
    destruct ((c =? space) && (c' =? space))%N eqn:E; [exact IH|].
    pose proof (sub_spaces_hd (c' :: t')) as Hd.
    destruct (sub_spaces (c' :: t')) as [|d u] eqn:Eu; [discriminate|].
    simpl in Hd. injection Hd as ->.
    rewrite sub_spaces_cons2, E, IH. reflexivity.
Qed.

(** The substitution works line by line: a newline is not a space. *)
Lemma sub_spaces_app_nl (x r : pystr) :
  sub_spaces (x ++ nl :: r) = sub_spaces x ++ nl :: sub_spaces r.
Proof.
  induction x as [|c x IH]; [reflexivity|].
  change ((c :: x) ++ nl :: r) with (c :: (x ++ nl :: r)).
  destruct (c =? space)%N eqn:Ec.
  - destruct x as [|c' x'].
    + simpl. rewrite Ec. reflexivity.
    + simpl in *. rewrite Ec.
      destruct (c' =? space)%N eqn:Ec'.
      * exact IH.
      * rewrite IH. reflexivity.
  - rewrite !sub_spaces_nonspace by assumption. rewrite IH. reflexivity.
Qed.

Lemma sub_spaces_join (L : list pystr) :
  sub_spaces (join [nl] L) = join [nl] (map sub_spaces L).
Proof.
  induction L as [|x [|y rest] IH]; [reflexivity|reflexivity|].
  change (join [nl] (x :: y :: rest)) with (x ++ nl :: join [nl] (y :: rest)).
  rewrite sub_spaces_app_nl, IH. reflexivity.
Qed.

Lemma lstrip_sub_spaces (l : pystr) :
  lstrip l = l -> lstrip (sub_spaces l) = sub_spaces l.
Proof.
  destruct l as [|c t]; [reflexivity|].
  intro H. apply lstrip_fixed_head in H.
  assert (Ec : (c =? space)%N = false).
  { destruct (c =? space)%N eqn:E; [|reflexivity].
    apply N.eqb_eq in E; subst c. rewrite isspace_space in H; discriminate. }
  rewrite sub_spaces_nonspace by assumption.
  apply lstrip_head_nonspace; assumption.
Qed.

Lemma rstrip_fixed_tail c t :
  t <> [] -> rstrip (c :: t) = c :: t -> rstrip t = t.
Proof.
  intros Ht. simpl. destruct (rstrip t) as [|r rs] eqn:E.
  - destruct (isspace c); intro H; [discriminate|].
    injection H as H. congruence.
  - intro H; injection H as H; congruence.
Qed.

Lemma rstrip_sub_spaces (l : pystr) :
  rstrip l = l -> rstrip (sub_spaces l) = sub_spaces l.
Proof.
  induction l as [|c t IH]; [reflexivity|].
  intro H. destruct t as [|c' t'].
  - simpl in H. destruct (isspace c) eqn:Ec; [discriminate|].
    simpl. destruct (c =? space)%N; simpl; rewrite Ec; reflexivity.
  - assert (Ht : rstrip (c' :: t') = c' :: t')
      by (apply (rstrip_fixed_tail c); [discriminate|assumption]).
    specialize (IH Ht).
    assert (Hne : sub_spaces (c' :: t') <> [])
      by (intro E; apply sub_spaces_nil in E; discriminate).
    assert (Hk : rstrip (c :: sub_spaces (c' :: t')) = c :: sub_spaces (c' :: t')).
    { rewrite rstrip_cons_nonnil; rewrite IH; [reflexivity|assumption]. }
    change (sub_spaces (c :: c' :: t')) with
      (if (c =? space)%N
       then if (c' =? space)%N then sub_spaces (c' :: t')
            else c :: sub_spaces (c' :: t')
       else c :: sub_spaces (c' :: t')).
    destruct (c =? space)%N; [destruct (c' =? space)%N|]; assumption.
Qed.

End SubSpaces.

(** *** [split] and [join] on newlines *)

Section SplitJoin.

Lemma split_go_nonnil sep k (s : pystr) : split_go sep k s <> [].
Proof.
  revert k; induction s as [|c t IH]; intro k; simpl; [discriminate|].
  destruct k; [|apply IH].
  destruct (startswith sep (c :: t)); [discriminate|].
  destruct (split_go sep 0 t); discriminate.
Qed.

(** Splitting on a one-character separator, one character at a time. *)
Lemma split_char_cons sep c t :
  split [sep] (c :: t) =
  if (sep =? c)%N then [] :: split [sep] t
  else match split [sep] t with
       | seg :: rest => (c :: seg) :: rest
       | [] => [[c]]
       end.
Proof.
  unfold split. simpl. rewrite andb_true_r. reflexivity.
Qed.

Lemma split_char_absent sep (x : pystr) : ~ In sep x -> split [sep] x = [x].
Proof.
  induction x as [|c x IH]; intro H; [reflexivity|].
  rewrite split_char_cons.
  destruct (sep =? c)%N eqn:E.
  - apply N.eqb_eq in E. exfalso; apply H; left; auto.
  - rewrite IH; [reflexivity|]. intro; apply H; right; assumption.
Qed.

Lemma split_char_app sep (x r : pystr) :
  ~ In sep x -> split [sep] (x ++ sep :: r) = x :: split [sep] r.
Proof.
  induction x as [|c x IH]; intro H.
  - simpl app. rewrite split_char_cons, N.eqb_refl. reflexivity.
  - change ((c :: x) ++ sep :: r) with (c :: (x ++ sep :: r)).
    rewrite split_char_cons.
    destruct (sep =? c)%N eqn:E.
    + apply N.eqb_eq in E. exfalso; apply H; left; auto.
    + rewrite IH; [reflexivity|]. intro; apply H; right; assumption.
Qed.

Lemma split_char_segments sep (s : pystr) :
  Forall (fun l => ~ In sep l) (split [sep] s).
Proof.
  induction s as [|c t IH]; [repeat constructor; auto|].
  rewrite split_char_cons.
  destruct (sep =? c)%N eqn:E.
  - constructor; [simpl; tauto|assumption].
  - destruct (split [sep] t) as [|seg rest].
    + repeat constructor. simpl. intros [->|[]]. rewrite N.eqb_refl in E; discriminate.
    + inversion IH; subst. constructor; [|assumption].
      simpl. intros [->|Hin]; [rewrite N.eqb_refl in E; discriminate|auto].
Qed.

(** Splitting what was joined gives the lines back. *)
Lemma split_join sep (L : list pystr) :
  L <> [] -> Forall (fun l => ~ In sep l) L -> split [sep] (join [sep] L) = L.
Proof.
  induction L as [|x [|y rest] IH]; intros Hne HL; [congruence| |].
  - simpl. apply split_char_absent. inversion HL; assumption.
  - change (join [sep] (x :: y :: rest)) with (x ++ sep :: join [sep] (y :: rest)).
    inversion HL; subst.
    rewrite split_char_app by assumption.
    rewrite IH; [reflexivity|discriminate|assumption].
Qed.

(** The number of segments is one more than the number of separators. *)
Lemma split_char_length sep (s : pystr) :
  List.length (split [sep] s) = S (count_occ N.eq_dec s sep).
Proof.
  induction s as [|c t IH]; [reflexivity|].
  rewrite split_char_cons. simpl count_occ.
  destruct (N.eq_dec c sep) as [->|Hne].
  - rewrite N.eqb_refl. simpl. rewrite IH. reflexivity.
  - destruct (sep =? c)%N eqn:E; [apply N.eqb_eq in E; congruence|].
    destruct (split [sep] t); simpl in *; lia.
Qed.

(** The head of joined non-empty lines is the head of the first line. *)
Lemma join_cons_head sep c (l : pystr) (rest : list pystr) :
  exists r, join sep ((c :: l) :: rest) = c :: r.
Proof. destruct rest; simpl; eauto. Qed.

Lemma split_go_cons sep c (t : pystr) :
  split_go sep 0 (c :: t) =
  if startswith sep (c :: t) then [] :: split_go sep (List.length sep - 1) t
  else match split_go sep 0 t with
       | seg :: rest => (c :: seg) :: rest
       | [] => [[c]]
       end.
Proof. reflexivity. Qed.

Lemma startswith_nn_head (c : codepoint) (t : pystr) :
  (nl =? c)%N = false -> startswith [nl; nl] (c :: t) = false.
Proof. intro E. cbn [startswith]. rewrite E. reflexivity. Qed.

Lemma startswith_nn_second (c : codepoint) (t : pystr) :
  (nl =? c)%N = false -> startswith [nl; nl] (nl :: c :: t) = false.
Proof.
  intro E. cbn [startswith]. rewrite E, N.eqb_refl. reflexivity.
Qed.

(** Text whose lines are not empty has no empty paragraph separator. *)
Lemma split_nn_absent (x : pystr) : ~ In nl x -> split [nl; nl] x = [x].
Proof.
  unfold split.
  induction x as [|c x IH]; intro H; [reflexivity|].
  assert (E : (nl =? c)%N = false).
  { apply N.eqb_neq. intro; apply H; left; auto. }
  rewrite split_go_cons, startswith_nn_head by exact E.
  rewrite IH; [reflexivity|]. intro; apply H; right; assumption.
Qed.

Lemma split_nn_glue (x : pystr) c (r : pystr) :
  ~ In nl x -> c <> nl ->
  split [nl; nl] (c :: r) = [c :: r] ->
  split [nl; nl] (x ++ nl :: c :: r) = [x ++ nl :: c :: r].
Proof.
  unfold split. intros Hx Hc Hr.
  induction x as [|a x IH].
  - assert (E : (nl =? c)%N = false) by (apply N.eqb_neq; congruence).
    change ([] ++ nl :: c :: r) with (nl :: c :: r).
    rewrite split_go_cons, startswith_nn_second by exact E.
    rewrite Hr. reflexivity.
  - change ((a :: x) ++ nl :: c :: r) with (a :: (x ++ nl :: c :: r)).
    assert (E : (nl =? a)%N = false).
    { apply N.eqb_neq. intro; apply Hx; left; auto. }
    rewrite split_go_cons, startswith_nn_head by exact E.
    rewrite IH; [reflexivity|].
    intro; apply Hx; right; assumption.
Qed.

End SplitJoin.

(** * Normalisation *)

Section Clean.

(** The lines [_clean_text] keeps, before the spaces are collapsed. *)
Lemma kept_lines_tidy (s : pystr) :
  Forall (fun l => l <> [] /\ ~ In nl l /\ lstrip l = l /\ rstrip l = l)
    (filter (fun l => negb (str_eqb l [])) (map strip (split [nl] s))).
Proof.
  apply Forall_forall. intros l Hl.
  apply filter_In in Hl. destruct Hl as [Hin Hne].
  apply negb_str_eqb_nil in Hne.
  apply in_map_iff in Hin. destruct Hin as [x [<- Hx]].
  pose proof (split_char_segments nl s) as Hseg.
  rewrite Forall_forall in Hseg. specialize (Hseg x Hx).
  repeat split.
  - assumption.
  - intro H; apply Hseg, In_strip, H.
  - unfold strip. apply lstrip_rstrip_fixed, lstrip_idem.
  - unfold strip. apply rstrip_idem.
Qed.

Lemma sub_spaces_tidy (l : pystr) :
  l <> [] /\ ~ In nl l /\ lstrip l = l /\ rstrip l = l -> tidy_line (sub_spaces l).
Proof.
  intros (Hne & Hnl & Hl & Hr). repeat split.
  - intro E; apply Hne, sub_spaces_nil, E.
  - intro H; apply Hnl, In_sub_spaces, H.
  - apply lstrip_sub_spaces, Hl.
  - apply rstrip_sub_spaces, Hr.
  - apply sub_spaces_idem.
Qed.

(** Cleaned text is a newline-separated sequence of tidy lines. *)
Lemma clean_shape (s : pystr) :
  exists L, _clean_text s = join [nl] L /\ Forall tidy_line L.
Proof.
  destruct s as [|c t].
  - exists []. split; [reflexivity|constructor].
  - exists (map sub_spaces
              (filter (fun l => negb (str_eqb l [])) (map strip (split [nl] (c :: t))))).
    split.
    + unfold _clean_text. apply sub_spaces_join.
    + apply Forall_forall. intros l Hl.
      apply in_map_iff in Hl. destruct Hl as [x [<- Hx]].
      apply sub_spaces_tidy.
      pose proof (kept_lines_tidy (c :: t)) as K.
      rewrite Forall_forall in K. apply K, Hx.
Qed.

Lemma map_fixed (A : Type) (f : A -> A) (L : list A) :
  Forall (fun x => f x = x) L -> map f L = L.
Proof.
  induction 1 as [|x L Hx _ IH]; simpl; [reflexivity|]. rewrite Hx, IH; reflexivity.
Qed.

Lemma filter_all (A : Type) (p : A -> bool) (L : list A) :
  Forall (fun x => p x = true) L -> filter p L = L.
Proof.
  induction 1 as [|x L Hx _ IH]; simpl; [reflexivity|]. rewrite Hx, IH; reflexivity.
Qed.

(** [_clean_text] leaves a sequence of tidy lines as it is. *)
Lemma clean_tidy_lines (L : list pystr) :
  Forall tidy_line L -> _clean_text (join [nl] L) = join [nl] L.
Proof.
  intro HL.
  destruct (join [nl] L) as [|c t] eqn:EJ; [reflexivity|].
  assert (Hne : L <> []) by (intros ->; discriminate).
  unfold _clean_text. rewrite <- EJ.
  rewrite split_join; [|assumption|].
  2:{ eapply Forall_impl; [|exact HL]. intros l Hl; apply Hl. }
  rewrite (map_fixed _ strip).
  2:{ eapply Forall_impl; [|exact HL]. intros l (_ & _ & Hl & Hr & _).
      apply strip_fixed; assumption. }
  rewrite filter_all.
  2:{ eapply Forall_impl; [|exact HL]. intros l (Hl & _).
      apply negb_str_eqb_nil, Hl. }
  rewrite sub_spaces_join, (map_fixed _ sub_spaces); [reflexivity|].
  eapply Forall_impl; [|exact HL]. intros l (_ & _ & _ & _ & Hs). exact Hs.
Qed.

(** Non-empty cleaned text starts with a character that is not whitespace. *)
Lemma tidy_join_head (L : list pystr) :
  Forall tidy_line L -> join [nl] L <> [] ->
  exists c r, join [nl] L = c :: r /\ isspace c = false.
Proof.
  intros HL Hne. destruct L as [|l rest]; [contradiction Hne; reflexivity|].
  inversion HL as [|? ? Hl _]; subst.
  destruct Hl as (Hl & _ & Hls & _).
  destruct l as [|c l']; [congruence|].
  destruct (join_cons_head [nl] c l' rest) as [r Er].
  exists c, r. split; [assumption|]. eapply lstrip_fixed_head, Hls.
Qed.

(** Non-empty cleaned text is one paragraph for [split('\n\n')]. *)
Lemma tidy_join_one_paragraph (L : list pystr) :
  Forall tidy_line L -> L <> [] ->
  split [nl; nl] (join [nl] L) = [join [nl] L].
Proof.
  induction L as [|x [|y rest] IH]; intros HL Hne; [congruence| |].
  - simpl. apply split_nn_absent. inversion HL as [|? ? Hx _]; subst. apply Hx.
  - inversion HL as [|? ? Hx Hrest]; subst.
    change (join [nl] (x :: y :: rest)) with (x ++ nl :: join [nl] (y :: rest)).
    assert (Hy : join [nl] (y :: rest) <> []).
    { inversion Hrest as [|? ? Hy' _]; subst. destruct Hy' as (Hy' & _).
      destruct y as [|c y']; [congruence|].
      destruct (join_cons_head [nl] c y' rest) as [r ->]. discriminate. }
    destruct (tidy_join_head (y :: rest) Hrest Hy) as (c & r & Er & Ec).
    specialize (IH Hrest ltac:(discriminate)).
    rewrite Er in *.
    apply split_nn_glue; [apply Hx| |exact IH].
    intros ->. rewrite isspace_nl in Ec. discriminate.
Qed.

End Clean.

(** ** C2 *)

(** C2. Normalisation is idempotent: cleaning cleaned text changes nothing,
    for every string. *)
Theorem clean_text_idempotent (s : pystr) :
  _clean_text (_clean_text s) = _clean_text s.
Proof.
  destruct (clean_shape s) as (L & -> & HL).
  apply clean_tidy_lines, HL.
Qed.

(** * Statistics *)

Section Stats.

Lemma split_ws_cons c (t : pystr) :
  split_ws (c :: t) =
  if isspace c then split_ws t
  else match t with
       | [] => [[c]]
       | c' :: _ =>
           if isspace c' then [c] :: split_ws t
           else match split_ws t with
                | w :: ws => (c :: w) :: ws
                | [] => [[c]]
                end
       end.
Proof. reflexivity. Qed.

Lemma split_ws_head_nonspace c (t : pystr) :
  isspace c = false -> split_ws (c :: t) <> [].
Proof.
  intro H. rewrite split_ws_cons, H.
  destruct t as [|c' t']; [discriminate|].
  destruct (isspace c'); [discriminate|].
  destruct (split_ws (c' :: t')); discriminate.
Qed.

Lemma count_token_starts_true c (t : pystr) :
  count_token_starts true (c :: t) =
  (if isspace c then 0 else 1) + count_token_starts false (c :: t).
Proof. simpl. destruct (isspace c); reflexivity. Qed.

(** [len(text.split())] counts the places where a token starts. *)
Lemma split_ws_length (s : pystr) :
  List.length (split_ws s) = count_tokens s.
Proof.
  unfold count_tokens.
  induction s as [|c t IH]; [reflexivity|].
  rewrite split_ws_cons.
  change (count_token_starts true (c :: t)) with
    ((if true && negb (isspace c) then 1 else 0) + count_token_starts (isspace c) t).
  destruct (isspace c) eqn:Ec; simpl andb; cbv iota; [exact IH|].
  destruct t as [|c' t']; [reflexivity|].
  rewrite count_token_starts_true in IH.
  pose proof (split_ws_head_nonspace c' t') as Hne.
  remember (split_ws (c' :: t')) as W eqn:EW.
  remember (count_token_starts false (c' :: t')) as n eqn:En.
  cbv iota. destruct (isspace c').
  - cbn [List.length]. lia.
  - destruct W as [|w ws]; [exfalso; apply Hne; reflexivity|].
    cbn [List.length] in *. lia.
Qed.

End Stats.

(** ** C8 *)

(** C8. The statistics meet their reference definition.  For non-empty text
    the character count is its length, the word count is the number of
    whitespace-delimited tokens, the line count is the number of
    newline-delimited segments and is at least 1; for empty text all four
    fields are 0; and the text of the two lines "hello world" and "foo" has
    15 characters, 3 words and 2 lines. *)
Theorem get_text_stats_reference :
  (forall c t,
      let text := c :: t in
      character_count (get_text_stats text) = List.length text
      /\ word_count (get_text_stats text) = count_tokens text
      /\ line_count (get_text_stats text) = count_segments text
      /\ 1 <= line_count (get_text_stats text))
  /\ get_text_stats [] =
       {| character_count := 0; word_count := 0;
          line_count := 0; paragraph_count := 0 |}
  /\ (let st := get_text_stats (py "hello world" ++ [nl] ++ py "foo") in
      character_count st = 15 /\ word_count st = 3 /\ line_count st = 2).
Proof.
  split; [|split].
  - intros c t text. unfold get_text_stats, text; cbn [character_count word_count line_count].
    rewrite split_ws_length, split_char_length.
    unfold count_segments. repeat split; lia.
  - reflexivity.
  - vm_compute. repeat split.
Qed.

(** ** C9 *)

(** C9. Whenever cleaning leaves some text, the statistics of that text
    report exactly one paragraph, and the paragraph count does not exceed
    the line count. *)
Theorem cleaned_text_one_paragraph (s : pystr) :
  _clean_text s <> [] ->
  paragraph_count (get_text_stats (_clean_text s)) = 1
  /\ paragraph_count (get_text_stats (_clean_text s))
     <= line_count (get_text_stats (_clean_text s)).
Proof.
  intro Hne.
  destruct (clean_shape s) as (L & E & HL). rewrite E in *.
  assert (HLne : L <> []) by (intros ->; apply Hne; reflexivity).
  destruct (tidy_join_head L HL Hne) as (c & r & Er & Ec).
  assert (Hp : paragraph_count (get_text_stats (join [nl] L)) = 1).
  { pose proof (tidy_join_one_paragraph L HL HLne) as Hs.
    rewrite Er in *. unfold get_text_stats; cbn [paragraph_count].
    rewrite Hs. cbn [filter].
    assert (Hstrip : strip (c :: r) <> []).
    { unfold strip. rewrite lstrip_head_nonspace by assumption.
      apply rstrip_head_nonspace; assumption. }
    apply negb_str_eqb_nil in Hstrip. rewrite Hstrip. reflexivity. }
  split; [exact Hp|]. rewrite Hp.
  rewrite Er. unfold get_text_stats; cbn [line_count].
  pose proof (split_go_nonnil [nl] 0 (c :: r)) as Hn. unfold split.
  destruct (split_go [nl] 0 (c :: r)); [congruence|simpl; lia].
Qed.

(** Cleaning two paragraphs separated by a blank line leaves two lines
    that count as one paragraph. *)
Lemma cleaned_text_one_paragraph_witness :
  let s := py "first paragraph" ++ [nl; nl] ++ py "  second   paragraph " in
  _clean_text s <> []
  /\ paragraph_count (get_text_stats (_clean_text s)) = 1
  /\ paragraph_count (get_text_stats (_clean_text s))
     <= line_count (get_text_stats (_clean_text s)).
Proof.
  intro s.
  assert (H : _clean_text s <> []) by (vm_compute; discriminate).
  split; [exact H|].
  exact (cleaned_text_one_paragraph s H).
Defined.

(** * The extractor *)

Section ExtractorFacts.

Variable rt : Runtime.

Lemma py_app_nonnil a s (e : pystr) : py (String a s) ++ e <> [].
Proof. discriminate. Qed.

Lemma failure_invariant (msg : pystr) :
  msg <> [] -> ExtractionResult_invariant (false, [], msg).
Proof.
  intro H. right. split.
  - split; [reflexivity|exact H].
  - intros [Hok _]. discriminate Hok.
Qed.

Lemma success_invariant (text : pystr) :
  text <> [] -> ExtractionResult_invariant (true, text, []).
Proof.
  intro H. left. split.
  - split; [reflexivity|exact H].
  - intros [Hok _]. discriminate Hok.
Qed.

Lemma finish_blank (no_text raw : pystr) :
  blank (_clean_text raw) = true -> finish no_text raw = (false, [], no_text).
Proof.
  intro H. apply strip_nil_blank in H. unfold finish. rewrite H. reflexivity.
Qed.

Lemma finish_invariant (no_text raw : pystr) :
  no_text <> [] -> ExtractionResult_invariant (finish no_text raw).
Proof.
  intro H. unfold finish.
  destruct (strip (_clean_text raw)) as [|c r] eqn:E.
  - apply failure_invariant, H.
  - apply success_invariant, strip_nonnil. rewrite E. discriminate.
Qed.

Lemma extract_pdf_invariant fp fc :
  ExtractionResult_invariant (_extract_pdf_text rt fp fc).
Proof.
  unfold _extract_pdf_text, _read_pdf.
  destruct (match fp, fc with
            | Some (c :: p), _ => pdf_pages_of_path rt (c :: p)
            | _, Some (b :: bs) => pdf_pages_of_bytes rt (b :: bs)
            | _, _ => Returned []
            end) as [ps|e].
  - destruct (accumulate [] ps) as [text|e].
    + apply finish_invariant. discriminate.
    + apply failure_invariant, py_app_nonnil.
  - apply failure_invariant, py_app_nonnil.
Qed.

Lemma extract_docx_invariant fp fc :
  ExtractionResult_invariant (_extract_docx_text rt fp fc).
Proof.
  unfold _extract_docx_text, _read_docx.
  destruct (match fp, fc with
            | Some (c :: p), _ => docx_paragraphs_of_path rt (c :: p)
            | _, Some (b :: bs) => docx_paragraphs_of_bytes rt (b :: bs)
            | _, _ => Returned []
            end) as [ps|e].
  - destruct (accumulate [] ps) as [text|e].
    + apply finish_invariant. discriminate.
    + apply failure_invariant, py_app_nonnil.
  - apply failure_invariant, py_app_nonnil.
Qed.

Lemma extract_txt_invariant fp fc :
  ExtractionResult_invariant (_extract_txt_text rt fp fc).
Proof.
  unfold _extract_txt_text.
  destruct (_read_txt rt fp fc) as [r|text] eqn:E.
  - unfold _read_txt in E.
    assert (Hr : exists msg, msg <> [] /\ r = (false, [], msg)).
    { destruct fp as [[|c p]|], fc as [[|b bs]|];
        repeat match type of E with
               | context [match ?x with _ => _ end] => destruct x
               end;
        inversion E; subst; eexists; (split; [|reflexivity]);
        first [apply py_app_nonnil | discriminate]. }
    destruct Hr as (msg & Hmsg & ->). apply failure_invariant, Hmsg.
  - apply finish_invariant. discriminate.
Qed.

Lemma contains_here (x b : pystr) : startswith x (x ++ b) = true.
Proof.
  induction x as [|c x IH]; [reflexivity|].
  cbn [startswith app]. rewrite N.eqb_refl, IH. reflexivity.
Qed.

Lemma contains_middle (a x b : pystr) : contains x (a ++ x ++ b) = true.
Proof.
  induction a as [|c a IH].
  - change ([] ++ x ++ b) with (x ++ b).
    destruct (x ++ b) eqn:E; cbn [contains]; rewrite <- E, contains_here; reflexivity.
  - change ((c :: a) ++ x ++ b) with (c :: (a ++ x ++ b)).
    cbn [contains]. rewrite IH. apply orb_true_r.
Qed.

End ExtractorFacts.

(** ** C1 *)

(** C1. Whatever the path, the bytes and the format tag, and whatever the
    libraries return or raise, the result of [extract_text_from_file] is
    either a success with non-empty text or a failure with a non-empty
    error message, and not both. *)
Theorem extract_result_invariant
    (rt : Runtime) (file_path : option pystr) (file_content : option bytes)
    (file_type : option pystr) :
  ExtractionResult_invariant
    (extract_text_from_file rt file_path file_content file_type).
Proof.
  unfold extract_text_from_file.
  destruct (determine_file_type rt file_path file_content file_type) as [ft|].
  - destruct (negb (str_in ft Config.SUPPORTED_FILE_TYPES)).
    + apply failure_invariant, py_app_nonnil.
    + destruct (too_large file_content).
      * apply failure_invariant, py_app_nonnil.
      * destruct (str_eqb ft (py "pdf")); [apply extract_pdf_invariant|].
        destruct (str_eqb ft (py "txt")); [apply extract_txt_invariant|].
        destruct (str_eqb ft (py "docx")); [apply extract_docx_invariant|].
        apply failure_invariant, py_app_nonnil.
  - apply failure_invariant. discriminate.
Qed.

(** ** C10 *)

(** C10. With no path and zero bytes of content the result is the failure
    "No file provided or file type not specified", for every format tag:
    neither the tag, nor the size limit, nor a parser is consulted. *)
Theorem empty_upload_is_missing_input (rt : Runtime) (file_type : option pystr) :
  extract_text_from_file rt None (Some []) file_type
  = (false, [], py "No file provided or file type not specified").
Proof. reflexivity. Qed.

(** ** C3 *)

(** C3. When the text an extractor has read is blank after cleaning, the
    result is the failure "No text found ...", for PDF, plain text and DOCX
    alike, although the parser or decoder succeeded. *)
Theorem blank_text_is_no_text_found
    (rt : Runtime) (file_path : option pystr) (file_content : option bytes)
    (file_type : option pystr) (raw : pystr) :
  too_large file_content = false ->
  blank (_clean_text raw) = true ->
  (determine_file_type rt file_path file_content file_type = Some (py "pdf") ->
   _read_pdf rt file_path file_content = inr raw ->
   extract_text_from_file rt file_path file_content file_type
   = (false, [], py "No text found in PDF file"))
  /\ (determine_file_type rt file_path file_content file_type = Some (py "txt") ->
      _read_txt rt file_path file_content = inr raw ->
      extract_text_from_file rt file_path file_content file_type
      = (false, [], py "No text found in file"))
  /\ (determine_file_type rt file_path file_content file_type = Some (py "docx") ->
      _read_docx rt file_path file_content = inr raw ->
      extract_text_from_file rt file_path file_content file_type
      = (false, [], py "No text found in DOCX file")).
Proof.
  intros Hsize Hblank.
  repeat split; intros Hty Hread; unfold extract_text_from_file;
    rewrite Hty, Hsize.
  - change (_extract_pdf_text rt file_path file_content
            = (false, [], py "No text found in PDF file")).
    unfold _extract_pdf_text. rewrite Hread. apply finish_blank, Hblank.
  - change (_extract_txt_text rt file_path file_content
            = (false, [], py "No text found in file")).
    unfold _extract_txt_text. rewrite Hread. apply finish_blank, Hblank.
  - change (_extract_docx_text rt file_path file_content
            = (false, [], py "No text found in DOCX file")).
    unfold _extract_docx_text. rewrite Hread. apply finish_blank, Hblank.
Qed.

(** Uploads of a scanned PDF, of a text file of spaces and newlines, and
    of a DOCX without text: each is refused with "No text found". *)
Lemma blank_text_is_no_text_found_witness :
  let rt := fixture_runtime image_only_document in
  extract_text_from_file rt None (Some (bytes_of "%PDF-1.4")) (Some (py "PDF"))
  = (false, [], py "No text found in PDF file")
  /\ extract_text_from_file rt None (Some (bytes_of "    ")) (Some (py "txt"))
     = (false, [], py "No text found in file")
  /\ extract_text_from_file rt None (Some (bytes_of "PK")) (Some (py "docx"))
     = (false, [], py "No text found in DOCX file").
Proof.
  intro rt. split; [|split].
  - refine (proj1 (blank_text_is_no_text_found rt None (Some (bytes_of "%PDF-1.4"))
                     (Some (py "PDF")) ([nl] ++ py "  " ++ [nl]) _ _) _ _);
      reflexivity.
  - refine (proj1 (proj2 (blank_text_is_no_text_found rt None (Some (bytes_of "    "))
                     (Some (py "txt")) (py "    ") _ _)) _ _);
      reflexivity.
  - refine (proj2 (proj2 (blank_text_is_no_text_found rt None (Some (bytes_of "PK"))
                     (Some (py "docx")) ([nl] ++ py "  " ++ [nl]) _ _)) _ _);
      reflexivity.
Defined.

(** ** C7 *)

(** C7, as stated, fails: an upload of zero bytes with the tag "exe",
    which is outside the supported set, is refused as missing input, with a
    message that does not name the tag. *)
Lemma unsupported_tag_not_named_for_empty_upload :
  ~ (forall (rt : Runtime) (content : bytes) (tag : pystr),
        str_in tag Config.SUPPORTED_FILE_TYPES = false ->
        let r := extract_text_from_file rt None (Some content) (Some tag) in
        ok r = false
        /\ contains tag (error_of r) = true
        /\ contains (str_of_list Config.SUPPORTED_FILE_TYPES) (error_of r) = true).
Proof.
  intro H.
  specialize (H (fixture_runtime image_only_document) [] (py "exe") eq_refl).
  destruct H as (_ & Hnamed & _).
  vm_compute in Hnamed. discriminate Hnamed.
Qed.

(** C7, amended. For an upload with at least one byte and a non-empty
    format tag whose lower-case form is outside the supported set, the
    result is the failure "Unsupported file type: <tag in lower case>.
    Supported types: ['pdf', 'txt', 'docx']": the message names the
    lower-cased tag and lists the supported set. *)
Theorem unsupported_tag_is_refused
    (rt : Runtime) (content : bytes) (tag : pystr) :
  content <> [] ->
  tag <> [] ->
  str_in (str_lower rt tag) Config.SUPPORTED_FILE_TYPES = false ->
  let r := extract_text_from_file rt None (Some content) (Some tag) in
  r = (false, [],
       py "Unsupported file type: " ++ str_lower rt tag
         ++ py ". Supported types: ['pdf', 'txt', 'docx']")
  /\ ok r = false
  /\ contains (str_lower rt tag) (error_of r) = true
  /\ contains (py "['pdf', 'txt', 'docx']") (error_of r) = true.
Proof.
  intros Hc Ht Hin r.
  assert (Er : r = (false, [],
                    py "Unsupported file type: " ++ str_lower rt tag
                      ++ py ". Supported types: ['pdf', 'txt', 'docx']")).
  { unfold r, extract_text_from_file.
    destruct content as [|b bs]; [congruence|].
    destruct tag as [|t ts]; [congruence|].
    cbn [determine_file_type]. rewrite Hin. reflexivity. }
  split; [exact Er|]. rewrite Er. cbn [ok error_of fst snd].
  split; [reflexivity|]. split.
  - apply contains_middle.
  - change (py ". Supported types: ['pdf', 'txt', 'docx']")
      with (py ". Supported types: " ++ py "['pdf', 'txt', 'docx']" ++ []).
    rewrite !app_assoc. rewrite <- app_assoc. apply contains_middle.
Qed.

(** An executable uploaded with the tag "EXE". *)
Lemma unsupported_tag_is_refused_witness :
  let rt := fixture_runtime image_only_document in
  let r := extract_text_from_file rt None (Some (bytes_of "MZ")) (Some (py "EXE")) in
  r = (false, [],
       py "Unsupported file type: exe. Supported types: ['pdf', 'txt', 'docx']")
  /\ ok r = false
  /\ contains (py "exe") (error_of r) = true
  /\ contains (py "['pdf', 'txt', 'docx']") (error_of r) = true.
Proof.
  intros rt.
  refine (unsupported_tag_is_refused rt (bytes_of "MZ") (py "EXE") _ _ _).
  - vm_compute. discriminate.
  - vm_compute. discriminate.
  - reflexivity.
Defined.

(** * The completion client *)

Import LLM.

Section ClientFacts.

Variable tr : Transport.

Lemma init_without_credential (config_key api_key : option pystr) :
  truthy api_key = false -> truthy config_key = false ->
  client (__init__ config_key api_key) = false.
Proof.
  destruct api_key as [[|a k]|], config_key as [[|c k']|];
    simpl; intros; try reflexivity; discriminate.
Qed.

(** Where the caller passes a model, a temperature and a token limit that
    Python counts as true, the request carries them. *)
Lemma request_of_supplied (self : LLMClient) (prompt m : pystr)
    (t : QArith_base.Q) (k : Z) :
  m <> [] -> QArith_base.Qnum t <> 0%Z -> k <> 0%Z ->
  json (request_of self prompt (Some m) (Some t) (Some k))
  = {| model := m; messages := [(py "user", prompt)];
       temperature := t; max_tokens := k |}.
Proof.
  intros Hm Ht Hk. unfold request_of; cbn [json].
  destruct m as [|c m]; [congruence|]. cbn [or_str].
  unfold or_float, or_int.
  apply Z.eqb_neq in Ht, Hk. rewrite Ht, Hk. reflexivity.
Qed.

(** What [generate_response] returns is the content of a 200 reply to the
    one request it sent, or a string that starts with the cross mark. *)
Lemma generate_response_marked (self : LLMClient) (prompt : pystr)
    (m : option pystr) (t : option QArith_base.Q) (k : option Z) :
  let out := generate_response tr self prompt m t k in
  failure_marked (fst out) = true
  \/ (client self = true
      /\ exists req resp,
           snd out = [req] /\ tr req = Returned resp
           /\ status_code resp = 200%Z /\ content resp = Returned (fst out)).
Proof.
  unfold generate_response, bind, post, ret.
  destruct (client self); cbn [negb]; [|left; reflexivity].
  destruct (tr (request_of self prompt m t k)) as [resp|e] eqn:Etr;
    [|left; reflexivity].
  destruct (status_code resp =? 200)%Z eqn:Est; [|left; reflexivity].
  destruct (content resp) as [result|e] eqn:Ec; [|left; reflexivity].
  right. split; [reflexivity|].
  exists (request_of self prompt m t k), resp.
  apply Z.eqb_eq in Est. cbn [fst snd app]. auto.
Qed.

End ClientFacts.

(** ** C4 *)

(** C4. A client built without a credential, neither passed nor
    configured, is disabled: [generate_response], [summarize_text],
    [answer_question] and [test_connection] each return a fixed failure
    value and send no request. *)
Theorem disabled_client_fails_without_io
    (tr : Transport) (config_key api_key : option pystr) :
  truthy api_key = false ->
  truthy config_key = false ->
  let self := __init__ config_key api_key in
  (forall prompt m t k,
      generate_response tr self prompt m t k
      = ([cross_mark]
           ++ py " API client not initialized, please check API key configuration",
         []))
  /\ (forall text max_length,
         summarize_text tr self text max_length
         = ([cross_mark] ++ py " Cannot generate summary: API client not initialized",
            []))
  /\ (forall context question,
         answer_question tr self context question
         = ([cross_mark] ++ py " Cannot answer question: API client not initialized",
            []))
  /\ test_connection tr self = ((false, py "API client not initialized"), []).
Proof.
  intros Ha Hc self.
  pose proof (init_without_credential config_key api_key Ha Hc) as Hoff.
  fold self in Hoff.
  repeat split; intros;
    unfold generate_response, summarize_text, answer_question, test_connection;
    rewrite Hoff; reflexivity.
Qed.

(** A client built with no key argument and no configured key. *)
Lemma disabled_client_fails_without_io_witness :
  let tr := echo_transport (py "Connection test successful") in
  let self := __init__ None None in
  (forall prompt m t k,
      generate_response tr self prompt m t k
      = ([cross_mark]
           ++ py " API client not initialized, please check API key configuration",
         []))
  /\ (forall text max_length,
         summarize_text tr self text max_length
         = ([cross_mark] ++ py " Cannot generate summary: API client not initialized",
            []))
  /\ (forall context question,
         answer_question tr self context question
         = ([cross_mark] ++ py " Cannot answer question: API client not initialized",
            []))
  /\ test_connection tr self = ((false, py "API client not initialized"), []).
Proof.
  intro tr.
  exact (disabled_client_fails_without_io tr None None eq_refl eq_refl).
Defined.

(** ** C5 *)

(** C5, at the input where the code departs from it. A caller of
    [generate_response] on an enabled client who supplies the temperature
    0 has the request sent with the configured 0.1, because
    [temperature or Config.TEMPERATURE] takes 0 for an omitted argument. *)
Theorem generate_response_zero_temperature
    (tr : Transport) (c : codepoint) (key prompt : pystr)
    (m : option pystr) (k : option Z) :
  let self := __init__ None (Some (c :: key)) in
  map (fun r => temperature (json r))
      (snd (generate_response tr self prompt m (Some (QArith_base.Qmake 0 1)) k))
  = [QArith_base.Qmake 1 10].
Proof.
  intro self. unfold generate_response, bind, post, ret.
  change (client self) with true. cbn [negb].
  destruct (tr _) as [resp|e]; [|reflexivity].
  destruct (status_code resp =? 200)%Z; [|reflexivity].
  destruct (content resp); reflexivity.
Qed.

(** ** C6 *)

(** C6. Every string [generate_response], [summarize_text] and
    [answer_question] return on a failure path starts with the cross mark:
    whatever they return is either the content of a 200 reply to the one
    request sent, or a string with that prefix. *)
Theorem failure_strings_are_marked (tr : Transport) (self : LLMClient) :
  (forall prompt m t k,
      let out := generate_response tr self prompt m t k in
      failure_marked (fst out) = true
      \/ (client self = true
          /\ exists req resp,
               snd out = [req] /\ tr req = Returned resp
               /\ status_code resp = 200%Z /\ content resp = Returned (fst out)))
  /\ (forall text max_length,
         let out := summarize_text tr self text max_length in
         failure_marked (fst out) = true
         \/ (client self = true
             /\ exists req resp,
                  snd out = [req] /\ tr req = Returned resp
                  /\ status_code resp = 200%Z /\ content resp = Returned (fst out)))
  /\ (forall context question,
         let out := answer_question tr self context question in
         failure_marked (fst out) = true
         \/ (client self = true
             /\ exists req resp,
                  snd out = [req] /\ tr req = Returned resp
                  /\ status_code resp = 200%Z /\ content resp = Returned (fst out))).
Proof.
  split; [|split].
  - intros. apply generate_response_marked.
  - intros text max_length. unfold summarize_text.
    destruct (client self) eqn:Ec; cbn [negb].
    + pose proof (generate_response_marked tr self) as G.
      rewrite Ec in G. apply G.
    + left; reflexivity.
  - intros context question. unfold answer_question.
    destruct (client self) eqn:Ec; cbn [negb].
    + pose proof (generate_response_marked tr self) as G.
      rewrite Ec in G. apply G.
    + left; reflexivity.
Qed.

(** * Further properties of normalisation *)

Section Tokens.

Lemma blank_In (s : pystr) : blank s = true <-> forall c, In c s -> isspace c = true.
Proof. unfold blank. apply forallb_forall. Qed.

Lemma split_ws_blank (s : pystr) : blank s = true -> split_ws s = [].
Proof.
  induction s as [|c t IH]; [reflexivity|].
  cbn [blank forallb]. rewrite andb_true_iff. intros [Hc Ht].
  rewrite split_ws_cons, Hc. apply IH, Ht.
Qed.

Lemma split_ws_nil_blank (s : pystr) : split_ws s = [] -> blank s = true.
Proof.
  induction s as [|c t IH]; [reflexivity|].
  intro H. cbn [blank forallb].
  destruct (isspace c) eqn:Ec.
  - rewrite split_ws_cons, Ec in H. apply IH, H.
  - exfalso. apply (split_ws_head_nonspace c t Ec), H.
Qed.

(** What [split_ws] does at a character depends on the tail only through
    its first character and its tokens. *)
Lemma split_ws_tail_congr c (t t' : pystr) :
  hd_error t = hd_error t' -> split_ws t = split_ws t' ->
  split_ws (c :: t) = split_ws (c :: t').
Proof.
  intros Hh Hs. rewrite !split_ws_cons, Hs.
  destruct t as [|a t0], t' as [|a' t0']; try discriminate; [reflexivity|].
  injection Hh as ->. rewrite <- Hs. reflexivity.
Qed.

Lemma split_ws_app_space (x : pystr) w (y : pystr) :
  isspace w = true -> split_ws (x ++ w :: y) = split_ws x ++ split_ws y.
Proof.
  intro Hw. induction x as [|c x IH].
  - cbn [app]. rewrite split_ws_cons, Hw. reflexivity.
  - change ((c :: x) ++ w :: y) with (c :: (x ++ w :: y)).
    rewrite (split_ws_cons c (x ++ w :: y)), (split_ws_cons c x).
    destruct (isspace c); [exact IH|].
    destruct x as [|c' x'].
    + cbn [app]. rewrite Hw. rewrite split_ws_cons, Hw. reflexivity.
    + change ((c' :: x') ++ w :: y) with (c' :: (x' ++ w :: y)) in *.
      cbv beta iota.
      destruct (isspace c') eqn:Ec'.
      * rewrite IH. reflexivity.
      * rewrite IH.
        pose proof (split_ws_head_nonspace c' x' Ec') as Hne.
        destruct (split_ws (c' :: x')) as [|w0 ws0]; [congruence|reflexivity].
Qed.

Lemma split_ws_lstrip (s : pystr) : split_ws (lstrip s) = split_ws s.
Proof.
  induction s as [|c t IH]; [reflexivity|].
  cbn [lstrip]. destruct (isspace c) eqn:Ec; [|reflexivity].
  rewrite (split_ws_cons c t), Ec. exact IH.
Qed.

Lemma rstrip_hd (s : pystr) : rstrip s <> [] -> hd_error (rstrip s) = hd_error s.
Proof.
  destruct s as [|c t]; [reflexivity|].
  cbn [rstrip]. destruct (rstrip t).
  - destruct (isspace c); [congruence|reflexivity].
  - reflexivity.
Qed.

Lemma split_ws_rstrip (s : pystr) : split_ws (rstrip s) = split_ws s.
Proof.
  induction s as [|c t IH]; [reflexivity|].
  destruct (rstrip t) as [|r rs] eqn:Er.
  - assert (Hb : blank t = true) by (apply rstrip_nil_blank, Er).
    cbn [rstrip]. rewrite Er.
    rewrite (split_ws_cons c t), (split_ws_blank t Hb).
    destruct (isspace c) eqn:Ec; [reflexivity|].
    rewrite split_ws_cons, Ec.
    destruct t as [|c' t']; [reflexivity|].
    cbn [blank forallb] in Hb. apply andb_true_iff in Hb. destruct Hb as [-> _].
    reflexivity.
  - rewrite <- Er in IH.
    assert (Hne : rstrip t <> []) by (rewrite Er; discriminate).
    rewrite rstrip_cons_nonnil by exact Hne.
    apply split_ws_tail_congr; [apply rstrip_hd, Hne|exact IH].
Qed.

Lemma split_ws_strip (s : pystr) : split_ws (strip s) = split_ws s.
Proof. unfold strip. rewrite split_ws_rstrip. apply split_ws_lstrip. Qed.

Lemma isspace_eqb_space c : (c =? space)%N = true -> isspace c = true.
Proof. intro H. apply N.eqb_eq in H. subst c. reflexivity. Qed.

Lemma split_ws_sub_spaces (s : pystr) : split_ws (sub_spaces s) = split_ws s.
Proof.
  induction s as [|c t IH]; [reflexivity|].
  destruct t as [|c' t'].
  - cbn [sub_spaces]. destruct (c =? space)%N; reflexivity.
  - rewrite sub_spaces_cons2.
    destruct ((c =? space) && (c' =? space))%N eqn:E.
    + apply andb_true_iff in E. destruct E as [Ec _].
      rewrite (split_ws_cons c (c' :: t')), (isspace_eqb_space c Ec). exact IH.
    + apply split_ws_tail_congr; [apply sub_spaces_hd|exact IH].
Qed.

Lemma split_ws_join (L : list pystr) :
  split_ws (join [nl] L) = List.concat (map split_ws L).
Proof.
  induction L as [|x [|y rest] IH]; [reflexivity| |].
  - cbn [join map List.concat]. rewrite app_nil_r. reflexivity.
  - change (join [nl] (x :: y :: rest)) with (x ++ nl :: join [nl] (y :: rest)).
    rewrite split_ws_app_space by apply isspace_nl.
    rewrite IH. reflexivity.
Qed.

(** Joining the lines of a text with newlines gives the text back. *)
Lemma join_split sep (s : pystr) : join [sep] (split [sep] s) = s.
Proof.
  induction s as [|c t IH]; [reflexivity|].
  rewrite split_char_cons.
  pose proof (split_go_nonnil [sep] 0 t) as Hne. fold (split [sep] t) in Hne.
  destruct (split [sep] t) as [|seg rest] eqn:Es; [congruence|].
  destruct (sep =? c)%N eqn:E.
  - apply N.eqb_eq in E. subst c.
    change (join [sep] ([] :: seg :: rest)) with (sep :: join [sep] (seg :: rest)).
    rewrite IH. reflexivity.
  - destruct rest as [|seg' rest'].
    + cbn [join] in *. rewrite IH. reflexivity.
    + change (join [sep] ((c :: seg) :: seg' :: rest'))
        with (c :: join [sep] (seg :: seg' :: rest')).
      rewrite IH. reflexivity.
Qed.

Lemma kept_lines_tokens (L : list pystr) :
  List.concat (map split_ws (filter (fun l => negb (str_eqb l [])) (map strip L)))
  = List.concat (map split_ws L).
Proof.
  induction L as [|l L IH]; [reflexivity|].
  cbn [map filter List.concat].
  destruct (strip l) as [|c r] eqn:E.
  - cbn [str_eqb negb]. rewrite IH.
    rewrite <- (split_ws_strip l), E. reflexivity.
  - cbn [str_eqb negb map List.concat]. rewrite IH, <- E, split_ws_strip. reflexivity.
Qed.

Lemma clean_as_kept_lines (s : pystr) :
  _clean_text s = sub_spaces (join [nl] (kept_lines s)).
Proof. destruct s; reflexivity. Qed.

End Tokens.

Lemma word_count_split_ws (t : pystr) :
  word_count (get_text_stats t) = List.length (split_ws t).
Proof. destruct t; reflexivity. Qed.

Lemma split_ws_clean_text (s : pystr) :
  split_ws (_clean_text s) = split_ws s.
Proof.
  rewrite clean_as_kept_lines, split_ws_sub_spaces, split_ws_join.
  unfold kept_lines. rewrite kept_lines_tokens, <- split_ws_join, join_split.
  reflexivity.
Qed.

(** Cleaning changes no word: the whitespace-delimited tokens of the
    cleaned text are those of the text, in the same order, so the word
    count of a text and of its cleaned form agree. *)
Theorem clean_text_preserves_tokens (s : pystr) :
  split_ws (_clean_text s) = split_ws s
  /\ word_count (get_text_stats (_clean_text s)) = word_count (get_text_stats s).
Proof.
  pose proof (split_ws_clean_text s) as H.
  split; [exact H|].
  rewrite !word_count_split_ws, H. reflexivity.
Qed.

Section CleanFormat.

Lemma contains2_cons a b c (t : pystr) :
  contains [a; b] (c :: t) =
  ((a =? c)%N && match t with c' :: _ => (b =? c')%N | [] => false end)
  || contains [a; b] t.
Proof.
  cbn [contains startswith].
  destruct t as [|c' t']; cbn [startswith]; rewrite ?andb_true_r; reflexivity.
Qed.

Lemma contains2_absent a (x : pystr) : ~ In a x -> contains [a; a] x = false.
Proof.
  induction x as [|c x IH]; intro H; [reflexivity|].
  rewrite contains2_cons, IH by (intro; apply H; right; assumption).
  assert (E : (a =? c)%N = false) by (apply N.eqb_neq; intro; apply H; left; auto).
  rewrite E. reflexivity.
Qed.

Lemma contains2_glue a (x : pystr) c (r : pystr) :
  ~ In a x -> c <> a -> contains [a; a] (c :: r) = false ->
  contains [a; a] (x ++ a :: c :: r) = false.
Proof.
  intros Hx Hc Hr. induction x as [|d x IH].
  - cbn [app]. rewrite contains2_cons, Hr.
    assert (E : (a =? c)%N = false) by (apply N.eqb_neq; congruence).
    rewrite E, andb_false_r. reflexivity.
  - change ((d :: x) ++ a :: c :: r) with (d :: (x ++ a :: c :: r)).
    rewrite contains2_cons, IH by (intro; apply Hx; right; assumption).
    assert (E : (a =? d)%N = false) by (apply N.eqb_neq; intro; apply Hx; left; auto).
    rewrite E. reflexivity.
Qed.

Lemma sub_spaces_no_double (u : pystr) :
  contains [space; space] (sub_spaces u) = false.
Proof.
  induction u as [|c t IH]; [reflexivity|].
  destruct t as [|c' t'].
  - cbn [sub_spaces]. destruct (c =? space)%N; rewrite contains2_cons;
      rewrite andb_false_r; reflexivity.
  - rewrite sub_spaces_cons2.
    destruct ((c =? space) && (c' =? space))%N eqn:E; [exact IH|].
    pose proof (sub_spaces_hd (c' :: t')) as Hd.
    destruct (sub_spaces (c' :: t')) as [|d u'] eqn:Eu; [discriminate|].
    cbn [hd_error] in Hd. injection Hd as ->.
    rewrite contains2_cons, IH, orb_false_r.
    rewrite (N.eqb_sym space c), (N.eqb_sym space c'). exact E.
Qed.

Lemma tidy_join_no_blank_line (L : list pystr) :
  Forall tidy_line L -> contains [nl; nl] (join [nl] L) = false.
Proof.
  induction L as [|x [|y rest] IH]; intro HL; [reflexivity| |].
  - cbn [join]. apply contains2_absent. inversion HL as [|? ? Hx _]; subst. apply Hx.
  - inversion HL as [|? ? Hx Hrest]; subst.
    change (join [nl] (x :: y :: rest)) with (x ++ nl :: join [nl] (y :: rest)).
    assert (Hy : join [nl] (y :: rest) <> []).
    { inversion Hrest as [|? ? Hy' _]; subst. destruct Hy' as (Hy' & _).
      destruct y as [|c y']; [congruence|].
      destruct (join_cons_head [nl] c y' rest) as [r ->]. discriminate. }
    destruct (tidy_join_head (y :: rest) Hrest Hy) as (c & r & Er & Ec).
    specialize (IH Hrest). rewrite Er in *.
    apply contains2_glue; [apply Hx| |exact IH].
    intros ->. rewrite isspace_nl in Ec. discriminate.
Qed.

Lemma rstrip_app (x r : pystr) : rstrip r <> [] -> rstrip (x ++ r) = x ++ rstrip r.
Proof.
  intro H. induction x as [|c x IH]; [reflexivity|].
  change ((c :: x) ++ r) with (c :: (x ++ r)).
  rewrite rstrip_cons_nonnil; rewrite IH; [reflexivity|].
  destruct x; [exact H|discriminate].
Qed.

Lemma tidy_join_rstrip (L : list pystr) :
  Forall tidy_line L -> rstrip (join [nl] L) = join [nl] L.
Proof.
  induction L as [|x [|y rest] IH]; intro HL; [reflexivity| |].
  - cbn [join]. inversion HL as [|? ? Hx _]; subst. apply Hx.
  - inversion HL as [|? ? Hx Hrest]; subst.
    change (join [nl] (x :: y :: rest)) with (x ++ nl :: join [nl] (y :: rest)).
    specialize (IH Hrest).
    assert (Hy : join [nl] (y :: rest) <> []).
    { inversion Hrest as [|? ? Hy' _]; subst. destruct Hy' as (Hy' & _).
      destruct y as [|c y']; [congruence|].
      destruct (join_cons_head [nl] c y' rest) as [r ->]. discriminate. }
    assert (Hn : rstrip (nl :: join [nl] (y :: rest)) = nl :: join [nl] (y :: rest)).
    { rewrite rstrip_cons_nonnil; rewrite IH; [reflexivity|exact Hy]. }
    rewrite rstrip_app; rewrite Hn; [reflexivity|discriminate].
Qed.

Lemma tidy_join_strip (L : list pystr) :
  Forall tidy_line L -> strip (join [nl] L) = join [nl] L.
Proof.
  intro HL. apply strip_fixed; [|apply tidy_join_rstrip, HL].
  destruct (join [nl] L) as [|c r] eqn:E; [reflexivity|].
  assert (Hne : join [nl] L <> []) by (rewrite E; discriminate).
  destruct (tidy_join_head L HL Hne) as (c0 & r0 & E0 & Ec).
  rewrite E in E0. injection E0 as -> ->.
  apply lstrip_head_nonspace, Ec.
Qed.

End CleanFormat.

(** Cleaned text has no whitespace at either end, no two spaces in a row
    and no empty line. *)
Theorem clean_text_format (s : pystr) :
  strip (_clean_text s) = _clean_text s
  /\ contains [space; space] (_clean_text s) = false
  /\ contains [nl; nl] (_clean_text s) = false.
Proof.
  split; [|split].
  - destruct (clean_shape s) as (L & -> & HL). apply tidy_join_strip, HL.
  - rewrite clean_as_kept_lines. apply sub_spaces_no_double.
  - destruct (clean_shape s) as (L & -> & HL). apply tidy_join_no_blank_line, HL.
Qed.

(** Cleaning leaves nothing exactly when the text is empty or made of
    whitespace only. *)
Theorem clean_text_empty_iff_blank (s : pystr) :
  _clean_text s = [] <-> blank s = true.
Proof.
  pose proof (split_ws_clean_text s) as H.
  split.
  - intro E. apply split_ws_nil_blank. rewrite <- H, E. reflexivity.
  - intro Hb. apply split_ws_blank in Hb. rewrite <- H in Hb.
    apply split_ws_nil_blank, strip_nil_blank in Hb.
    destruct (clean_shape s) as (L & E & HL). rewrite E in *.
    rewrite tidy_join_strip in Hb by exact HL. exact Hb.
Qed.

Section CleanLines.

Lemma join_cons_length sep (x : pystr) (L : list pystr) :
  List.length (join sep (x :: L)) =
  List.length x
  + match L with [] => 0 | _ => List.length sep + List.length (join sep L) end.
Proof.
  destruct L as [|y rest]; cbn [join].
  - lia.
  - rewrite !length_app. reflexivity.
Qed.

Lemma rstrip_length (s : pystr) : List.length (rstrip s) <= List.length s.
Proof.
  induction s as [|c t IH]; [reflexivity|].
  cbn [rstrip]. destruct (rstrip t).
  - destruct (isspace c); simpl; lia.
  - simpl in *. lia.
Qed.

Lemma strip_length (s : pystr) : List.length (strip s) <= List.length s.
Proof.
  unfold strip. pose proof (rstrip_length (lstrip s)). pose proof (lstrip_length s). lia.
Qed.

Lemma sub_spaces_length (s : pystr) : List.length (sub_spaces s) <= List.length s.
Proof.
  induction s as [|c t IH]; [reflexivity|].
  destruct t as [|c' t'].
  - cbn [sub_spaces]. destruct (c =? space)%N; reflexivity.
  - rewrite sub_spaces_cons2. destruct ((c =? space) && (c' =? space))%N.
    + simpl List.length in *. lia.
    + simpl List.length in *. lia.
Qed.

Lemma kept_join_length (L : list pystr) :
  List.length (join [nl] (filter (fun l => negb (str_eqb l [])) (map strip L)))
  <= List.length (join [nl] L).
Proof.
  induction L as [|x L IH]; [reflexivity|].
  cbn [map filter]. rewrite (join_cons_length [nl] x L).
  pose proof (strip_length x) as Hx.
  destruct (negb (str_eqb (strip x) [])).
  - rewrite join_cons_length.
    destruct L as [|y L']; [cbn [map filter]; lia|].
    destruct (filter _ (map strip (y :: L'))); [lia|]. lia.
  - destruct L as [|y L']; [cbn [map filter join]; simpl; lia|]. lia.
Qed.

Lemma split_char_app_list sep (x y : pystr) :
  split [sep] (x ++ sep :: y) = split [sep] x ++ split [sep] y.
Proof.
  induction x as [|c x IH].
  - cbn [app]. rewrite split_char_cons, N.eqb_refl. reflexivity.
  - change ((c :: x) ++ sep :: y) with (c :: (x ++ sep :: y)).
    rewrite !split_char_cons, IH.
    destruct (sep =? c)%N; [reflexivity|].
    pose proof (split_go_nonnil [sep] 0 x) as Hne. fold (split [sep] x) in Hne.
    destruct (split [sep] x); [congruence|reflexivity].
Qed.

Lemma kept_lines_app (x y : pystr) :
  kept_lines (x ++ nl :: y) = kept_lines x ++ kept_lines y.
Proof.
  unfold kept_lines. rewrite split_char_app_list, map_app, filter_app. reflexivity.
Qed.

Lemma split_char_In sep (s seg : pystr) c :
  In seg (split [sep] s) -> In c seg -> In c s.
Proof.
  revert seg. induction s as [|d t IH]; intros seg Hseg Hc.
  - destruct Hseg as [<-|[]]. destruct Hc.
  - rewrite split_char_cons in Hseg.
    destruct (sep =? d)%N.
    + destruct Hseg as [<-|Hseg]; [destruct Hc|]. right. eapply IH; eassumption.
    + destruct (split [sep] t) as [|seg0 rest].
      * destruct Hseg as [<-|[]]. destruct Hc as [<-|[]]. left; reflexivity.
      * destruct Hseg as [<-|Hseg].
        -- destruct Hc as [<-|Hc]; [left; reflexivity|].
           right. apply (IH seg0); [left; reflexivity|exact Hc].
        -- right. apply (IH seg); [right; exact Hseg|exact Hc].
Qed.

Lemma kept_lines_blank (w : pystr) : blank w = true -> kept_lines w = [].
Proof.
  intro Hb. unfold kept_lines.
  assert (H : forall l, In l (map strip (split [nl] w)) -> l = []).
  { intros l Hl. apply in_map_iff in Hl. destruct Hl as (seg & <- & Hseg).
    apply strip_nil_blank, blank_In. intros c Hc.
    rewrite blank_In in Hb. apply Hb. eapply split_char_In; eassumption. }
  induction (map strip (split [nl] w)) as [|l L IH]; [reflexivity|].
  cbn [filter]. rewrite (H l) by (left; reflexivity). cbn [str_eqb negb].
  apply IH. intros l' Hl'. apply H. right; exact Hl'.
Qed.

Lemma kept_lines_count (L : list pystr) :
  List.length (filter (fun l => negb (str_eqb l [])) (map strip L))
  = List.length (filter (fun l => negb (blank l)) L).
Proof.
  induction L as [|l L IH]; [reflexivity|].
  cbn [map filter].
  assert (E : negb (str_eqb (strip l) []) = negb (blank l)).
  { destruct (blank l) eqn:Eb.
    - apply strip_nil_blank in Eb. rewrite Eb. reflexivity.
    - destruct (strip l) eqn:Es; [|reflexivity].
      apply strip_nil_blank in Es. congruence. }
  rewrite E. destruct (negb (blank l)); cbn [List.length]; rewrite IH; reflexivity.
Qed.

End CleanLines.

(** Cleaning never makes a text longer. *)
Theorem clean_text_length (s : pystr) :
  List.length (_clean_text s) <= List.length s.
Proof.
  rewrite clean_as_kept_lines.
  pose proof (sub_spaces_length (join [nl] (kept_lines s))) as H1.
  pose proof (kept_join_length (split [nl] s)) as H2.
  rewrite join_split in H2. unfold kept_lines in *. lia.
Qed.

(** The line count of cleaned text is the number of lines of the text that
    are not blank. *)
Theorem cleaned_line_count (s : pystr) :
  line_count (get_text_stats (_clean_text s)) = List.length (nonblank_lines s).
Proof.
  unfold nonblank_lines. rewrite <- kept_lines_count. fold (kept_lines s).
  pose proof (kept_lines_tidy s) as HK. fold (kept_lines s) in HK.
  rewrite clean_as_kept_lines, sub_spaces_join.
  assert (HT : Forall tidy_line (map sub_spaces (kept_lines s))).
  { apply Forall_forall. intros l Hl. apply in_map_iff in Hl.
    destruct Hl as (x & <- & Hx). apply sub_spaces_tidy.
    rewrite Forall_forall in HK. apply HK, Hx. }
  destruct (kept_lines s) as [|k K] eqn:EK; [reflexivity|].
  assert (Hne : join [nl] (map sub_spaces (k :: K)) <> []).
  { inversion HT as [|? ? Hk _]; subst. destruct Hk as (Hk & _).
    cbn [map]. destruct (sub_spaces k) as [|c r]; [congruence|].
    destruct (join_cons_head [nl] c r (map sub_spaces K)) as [r' ->]. discriminate. }
  destruct (join [nl] (map sub_spaces (k :: K))) as [|c r] eqn:EJ; [congruence|].
  cbn [get_text_stats line_count]. rewrite <- EJ.
  rewrite split_join.
  - rewrite length_map. reflexivity.
  - discriminate.
  - eapply Forall_impl; [|exact HT]. intros l Hl; apply Hl.
Qed.

(** Blank text between two lines, such as a page without extractable text,
    does not change the cleaned text. *)
Theorem clean_text_ignores_blank (x w y : pystr) :
  blank w = true ->
  _clean_text (x ++ nl :: w ++ nl :: y) = _clean_text (x ++ nl :: y).
Proof.
  intro Hb. rewrite !clean_as_kept_lines, !kept_lines_app.
  rewrite (kept_lines_blank w Hb). reflexivity.
Qed.

(** Two paragraphs with an empty page between them. *)
Lemma clean_text_ignores_blank_witness :
  let x := py "first page" in
  let w := py "   " ++ [nl] ++ py "  " in
  let y := py "third page" in
  blank w = true
  /\ _clean_text (x ++ nl :: w ++ nl :: y) = _clean_text (x ++ nl :: y).
Proof.
  intros x w y.
  assert (H : blank w = true) by reflexivity.
  split; [exact H|].
  exact (clean_text_ignores_blank x w y H).
Defined.

(** * Further properties of the statistics *)

Section StatsBounds.

Lemma count_token_starts_bound b (s : pystr) :
  2 * count_token_starts b s <= List.length s + (if b then 1 else 0).
Proof.
  revert b. induction s as [|c t IH]; intro b; [simpl; lia|].
  cbn [count_token_starts List.length].
  specialize (IH (isspace c)).
  destruct (isspace c), b; cbn [andb negb]; lia.
Qed.

Lemma split_nn_length k (s : pystr) :
  List.length (split_go [nl; nl] k s) <= S (count_occ N.eq_dec s nl).
Proof.
  revert k. induction s as [|c t IH]; intro k; [simpl; lia|].
  destruct k as [|k].
  - rewrite split_go_cons.
    destruct (startswith [nl; nl] (c :: t)) eqn:E.
    + cbn [startswith] in E. apply andb_true_iff in E. destruct E as [E _].
      apply N.eqb_eq in E. subst c.
      specialize (IH (List.length [nl; nl] - 1)).
      cbn [List.length count_occ] in *.
      destruct (N.eq_dec nl nl); [|congruence]. simpl in *. lia.
    + specialize (IH 0).
      assert (H : count_occ N.eq_dec t nl <= count_occ N.eq_dec (c :: t) nl).
      { cbn [count_occ]. destruct (N.eq_dec c nl); lia. }
      destruct (split_go [nl; nl] 0 t); cbn [List.length] in *; lia.
  - cbn [split_go]. specialize (IH k).
    assert (H : count_occ N.eq_dec t nl <= count_occ N.eq_dec (c :: t) nl).
    { cbn [count_occ]. destruct (N.eq_dec c nl); lia. }
    lia.
Qed.

Lemma count_occ_length (s : pystr) c : count_occ N.eq_dec s c <= List.length s.
Proof.
  induction s as [|d t IH]; [reflexivity|].
  cbn [count_occ List.length]. destruct (N.eq_dec d c); lia.
Qed.

End StatsBounds.

(** The statistics are consistent with one another for every text: twice
    the word count is at most the character count plus one, the paragraph
    count is at most the line count, the line count is at most the
    character count plus one, and no word is counted exactly for blank
    text. *)
Theorem get_text_stats_bounds (text : pystr) :
  let st := get_text_stats text in
  2 * word_count st <= character_count st + 1
  /\ paragraph_count st <= line_count st
  /\ line_count st <= character_count st + 1
  /\ (word_count st = 0 <-> blank text = true).
Proof.
  intro st. subst st. split; [|split; [|split]].
  - rewrite word_count_split_ws, split_ws_length. unfold count_tokens.
    pose proof (count_token_starts_bound true text) as H.
    destruct text; cbn [get_text_stats character_count List.length] in *; lia.
  - destruct text as [|c t]; [reflexivity|].
    cbn [get_text_stats paragraph_count line_count].
    pose proof (filter_length_le
                  (fun p => negb (str_eqb (strip p) [])) (split [nl; nl] (c :: t))) as H1.
    pose proof (split_nn_length 0 (c :: t)) as H2.
    rewrite split_char_length. unfold split in *. lia.
  - destruct text as [|c t]; [simpl; lia|].
    cbn [get_text_stats character_count line_count].
    rewrite split_char_length.
    pose proof (count_occ_length (c :: t) nl). lia.
  - rewrite word_count_split_ws. split.
    + intro H. apply split_ws_nil_blank.
      destruct (split_ws text); [reflexivity|discriminate].
    + intro H. rewrite (split_ws_blank text H). reflexivity.
Qed.

(** * Further properties of the extractor *)

Section ExtractorShape.

Variable rt : Runtime.

Lemma finish_well_shaped (no_text raw : pystr) : well_shaped (finish no_text raw).
Proof.
  unfold finish. destruct (strip (_clean_text raw)) as [|c r] eqn:E.
  - right. split; reflexivity.
  - left. cbn [ok text_of error_of fst snd]. repeat split.
    + destruct (clean_shape raw) as (L & -> & HL). apply clean_tidy_lines, HL.
    + destruct (blank (_clean_text raw)) eqn:Eb; [|reflexivity].
      apply strip_nil_blank in Eb. congruence.
Qed.

Lemma failure_well_shaped (msg : pystr) : well_shaped (false, [], msg).
Proof. right. split; reflexivity. Qed.

Lemma read_pdf_failure fp fc r :
  _read_pdf rt fp fc = inl r -> exists e, r = (false, [], py "Error reading PDF: " ++ e).
Proof.
  unfold _read_pdf.
  destruct (match fp, fc with
            | Some (c :: p), _ => pdf_pages_of_path rt (c :: p)
            | _, Some (b :: bs) => pdf_pages_of_bytes rt (b :: bs)
            | _, _ => Returned []
            end) as [ps|e].
  - destruct (accumulate [] ps) as [text|e]; intro H;
      [discriminate|inversion H; eexists; reflexivity].
  - intro H; inversion H; eexists; reflexivity.
Qed.

Lemma read_docx_failure fp fc r :
  _read_docx rt fp fc = inl r ->
  exists e, r = (false, [], py "Error reading DOCX file: " ++ e).
Proof.
  unfold _read_docx.
  destruct (match fp, fc with
            | Some (c :: p), _ => docx_paragraphs_of_path rt (c :: p)
            | _, Some (b :: bs) => docx_paragraphs_of_bytes rt (b :: bs)
            | _, _ => Returned []
            end) as [ps|e].
  - destruct (accumulate [] ps) as [text|e]; intro H;
      [discriminate|inversion H; eexists; reflexivity].
  - intro H; inversion H; eexists; reflexivity.
Qed.

Lemma read_txt_failure fp fc r :
  _read_txt rt fp fc = inl r ->
  (exists e, r = (false, [], py "Error reading TXT file: " ++ e))
  \/ r = (false, [], py "Unable to decode text file with common encodings").
Proof.
  unfold _read_txt. intro E.
  destruct fp as [[|c p]|], fc as [[|b bs]|];
    repeat match type of E with
           | context [match ?x with _ => _ end] => destruct x
           end;
    inversion E; subst;
    first [right; reflexivity | left; eexists; reflexivity].
Qed.

Lemma extract_well_shaped fp fc ft :
  well_shaped (extract_text_from_file rt fp fc ft).
Proof.
  unfold extract_text_from_file.
  destruct (determine_file_type rt fp fc ft) as [t|]; [|apply failure_well_shaped].
  destruct (negb (str_in t Config.SUPPORTED_FILE_TYPES)); [apply failure_well_shaped|].
  destruct (too_large fc); [apply failure_well_shaped|].
  destruct (str_eqb t (py "pdf")).
  { unfold _extract_pdf_text. destruct (_read_pdf rt fp fc) as [r|raw] eqn:E.
    - destruct (read_pdf_failure _ _ _ E) as [e ->]. apply failure_well_shaped.
    - apply finish_well_shaped. }
  destruct (str_eqb t (py "txt")).
  { unfold _extract_txt_text. destruct (_read_txt rt fp fc) as [r|raw] eqn:E.
    - destruct (read_txt_failure _ _ _ E) as [[e ->]| ->]; apply failure_well_shaped.
    - apply finish_well_shaped. }
  destruct (str_eqb t (py "docx")).
  { unfold _extract_docx_text. destruct (_read_docx rt fp fc) as [r|raw] eqn:E.
    - destruct (read_docx_failure _ _ _ E) as [e ->]. apply failure_well_shaped.
    - apply finish_well_shaped. }
  apply failure_well_shaped.
Qed.

Lemma last_app_nonnil (A : Type) (l1 l2 : list A) d :
  l2 <> [] -> last (l1 ++ l2) d = last l2 d.
Proof.
  intro H. induction l1 as [|a l1 IH]; [reflexivity|].
  cbn [app last]. destruct (l1 ++ l2) eqn:E; [|exact IH].
  apply app_eq_nil in E. destruct E; congruence.
Qed.

Lemma last_split_app sep (a b : pystr) :
  last (split [sep] (a ++ sep :: b)) [] = last (split [sep] b) [].
Proof.
  rewrite split_char_app_list. apply last_app_nonnil.
  apply split_go_nonnil.
Qed.

End ExtractorShape.

(** A successful result carries cleaned text that is not blank and an
    empty message; a failed result carries no text. *)
Theorem extract_result_fields
    (rt : Runtime) (file_path : option pystr) (file_content : option bytes)
    (file_type : option pystr) :
  let r := extract_text_from_file rt file_path file_content file_type in
  (ok r = true /\ error_of r = []
   /\ _clean_text (text_of r) = text_of r /\ blank (text_of r) = false)
  \/ (ok r = false /\ text_of r = []).
Proof. apply extract_well_shaped. Qed.

(** An upload larger than [MAX_FILE_SIZE] with a supported tag is refused
    with "File too large", whatever the bytes are and whatever the parsers
    would do with them. *)
Theorem oversize_upload_is_refused
    (rt : Runtime) (content : bytes) (tag : pystr) :
  tag <> [] ->
  str_in (str_lower rt tag) Config.SUPPORTED_FILE_TYPES = true ->
  (Config.MAX_FILE_SIZE < len content)%N ->
  extract_text_from_file rt None (Some content) (Some tag)
  = (false, [],
     py "File too large: " ++ format_mb_2f rt (len content)
       ++ py "MB. Maximum size: " ++ format_mb rt Config.MAX_FILE_SIZE ++ py "MB").
Proof.
  intros Ht Hin Hlen.
  destruct content as [|b bs]; [unfold len in Hlen; simpl in Hlen; lia|].
  destruct tag as [|t ts]; [congruence|].
  unfold extract_text_from_file. cbn [determine_file_type]. rewrite Hin.
  cbn [negb too_large]. apply N.ltb_lt in Hlen. rewrite Hlen. reflexivity.
Qed.

(** A PDF upload of ten mebibytes and one byte. *)
Lemma oversize_upload_is_refused_witness :
  let rt := fixture_runtime image_only_document in
  let content := repeat "000"%byte (N.to_nat (Config.MAX_FILE_SIZE + 1)) in
  extract_text_from_file rt None (Some content) (Some (py "pdf"))
  = (false, [],
     py "File too large: " ++ format_mb_2f rt (len content)
       ++ py "MB. Maximum size: " ++ format_mb rt Config.MAX_FILE_SIZE ++ py "MB").
Proof.
  intros rt content.
  refine (oversize_upload_is_refused rt content (py "pdf") _ _ _).
  - discriminate.
  - reflexivity.
  - unfold content, len. rewrite repeat_length, N2Nat.id. reflexivity.
Defined.

(** With a path, the file type is what follows the last dot of the path,
    in lower case; the content and the declared type play no part. *)
Theorem path_extension_decides_type
    (rt : Runtime) (base ext : pystr) (file_content : option bytes)
    (file_type : option pystr) :
  ~ In 46%N ext ->
  determine_file_type rt (Some (base ++ py "." ++ ext)) file_content file_type
  = Some (str_lower rt ext).
Proof.
  intro Hext. change (py ".") with [46%N].
  assert (E : last (split [46%N] (base ++ [46%N] ++ ext)) [] = ext).
  { change (base ++ [46%N] ++ ext) with (base ++ 46%N :: ext).
    rewrite last_split_app, split_char_absent by exact Hext. reflexivity. }
  unfold determine_file_type. change (py ".") with [46%N].
  destruct (base ++ [46%N] ++ ext) as [|c p] eqn:Ep.
  - destruct base; discriminate.
  - rewrite E. reflexivity.
Qed.

(** A path with two dots and an upper-case extension. *)
Lemma path_extension_decides_type_witness :
  determine_file_type (fixture_runtime image_only_document)
    (Some (py "docs/report.v2" ++ py "." ++ py "PDF")) None (Some (py "txt"))
  = Some (py "pdf").
Proof.
  refine (path_extension_decides_type (fixture_runtime image_only_document)
            (py "docs/report.v2") (py "PDF") None (Some (py "txt")) _).
  vm_compute. intuition discriminate.
Defined.

Section Pages.

Variable rt : Runtime.

Lemma accumulate_returned (acc : pystr) (ts : list pystr) :
  accumulate acc (map Returned ts) = Returned (acc ++ pages_text ts).
Proof.
  revert acc. induction ts as [|t ts IH]; intro acc.
  - cbn. rewrite app_nil_r. reflexivity.
  - cbn [map accumulate]. rewrite IH. unfold pages_text. cbn [map List.concat].
    rewrite <- !app_assoc. reflexivity.
Qed.

Lemma accumulate_raised (acc : pystr) (ts : list pystr) e
    (rest : list (outcome pystr)) :
  accumulate acc (map Returned ts ++ Raised e :: rest) = Raised e.
Proof.
  revert acc. induction ts as [|t ts IH]; intro acc; [reflexivity|].
  cbn [map app accumulate]. apply IH.
Qed.

Lemma kept_lines_nil : kept_lines [] = [].
Proof. reflexivity. Qed.

Lemma kept_lines_pages (ts : list pystr) :
  kept_lines (pages_text ts) = List.concat (map kept_lines ts).
Proof.
  induction ts as [|t ts IH]; [reflexivity|].
  unfold pages_text in *. cbn [map List.concat].
  rewrite <- app_assoc. change ([nl] ++ ?r) with (nl :: r).
  rewrite kept_lines_app, IH. reflexivity.
Qed.

Lemma tidy_join_nonnil (L : list pystr) :
  Forall tidy_line L -> L <> [] -> join [nl] L <> [].
Proof.
  intros HL Hne. destruct L as [|l rest]; [congruence|].
  inversion HL as [|? ? Hl _]; subst. destruct Hl as (Hl & _).
  destruct l as [|c l']; [congruence|].
  destruct (join_cons_head [nl] c l' rest) as [r ->]. discriminate.
Qed.

Lemma kept_lines_sub_spaces_tidy (lines : list pystr) :
  Forall (fun l => l <> [] /\ ~ In nl l /\ lstrip l = l /\ rstrip l = l) lines ->
  Forall tidy_line (map sub_spaces lines).
Proof.
  intro H. apply Forall_forall. intros l Hl. apply in_map_iff in Hl.
  destruct Hl as (x & <- & Hx). apply sub_spaces_tidy.
  rewrite Forall_forall in H. apply H, Hx.
Qed.

(** What the common tail of the extractors returns, in terms of the lines
    it keeps. *)
Lemma finish_kept_lines (no_text raw : pystr) :
  finish no_text raw =
  match kept_lines raw with
  | [] => (false, [], no_text)
  | lines => (true, join [nl] (map sub_spaces lines), [])
  end.
Proof.
  unfold finish. rewrite clean_as_kept_lines, sub_spaces_join.
  pose proof (kept_lines_tidy raw) as HK. fold (kept_lines raw) in HK.
  apply kept_lines_sub_spaces_tidy in HK.
  destruct (kept_lines raw) as [|k K]; [reflexivity|].
  rewrite tidy_join_strip by exact HK.
  pose proof (tidy_join_nonnil _ HK ltac:(discriminate)) as Hne.
  destruct (join [nl] (map sub_spaces (k :: K))); [congruence|reflexivity].
Qed.

Lemma supported_dispatch_pdf (content : bytes) (tag : pystr) :
  content <> [] -> tag <> [] -> too_large (Some content) = false ->
  str_lower rt tag = py "pdf" ->
  extract_text_from_file rt None (Some content) (Some tag)
  = _extract_pdf_text rt None (Some content).
Proof.
  intros Hc Ht Hs Hl. destruct content as [|b bs]; [congruence|].
  destruct tag as [|t ts]; [congruence|].
  unfold extract_text_from_file. cbn [determine_file_type]. rewrite Hl, Hs.
  reflexivity.
Qed.

Lemma supported_dispatch_txt (content : bytes) (tag : pystr) :
  content <> [] -> tag <> [] -> too_large (Some content) = false ->
  str_lower rt tag = py "txt" ->
  extract_text_from_file rt None (Some content) (Some tag)
  = _extract_txt_text rt None (Some content).
Proof.
  intros Hc Ht Hs Hl. destruct content as [|b bs]; [congruence|].
  destruct tag as [|t ts]; [congruence|].
  unfold extract_text_from_file. cbn [determine_file_type]. rewrite Hl, Hs.
  reflexivity.
Qed.

Lemma supported_dispatch_docx (content : bytes) (tag : pystr) :
  content <> [] -> tag <> [] -> too_large (Some content) = false ->
  str_lower rt tag = py "docx" ->
  extract_text_from_file rt None (Some content) (Some tag)
  = _extract_docx_text rt None (Some content).
Proof.
  intros Hc Ht Hs Hl. destruct content as [|b bs]; [congruence|].
  destruct tag as [|t ts]; [congruence|].
  unfold extract_text_from_file. cbn [determine_file_type]. rewrite Hl, Hs.
  reflexivity.
Qed.

Lemma pdf_pages_result (content : bytes) (ts : list pystr) :
  content <> [] ->
  pdf_pages_of_bytes rt content = Returned (map Returned ts) ->
  _extract_pdf_text rt None (Some content)
  = match List.concat (map kept_lines ts) with
    | [] => (false, [], py "No text found in PDF file")
    | lines => (true, join [nl] (map sub_spaces lines), [])
    end.
Proof.
  intros Hc Hp. destruct content as [|b bs]; [congruence|].
  unfold _extract_pdf_text, _read_pdf. rewrite Hp, accumulate_returned.
  cbn [app]. rewrite finish_kept_lines, kept_lines_pages. reflexivity.
Qed.

Lemma docx_paragraphs_result (content : bytes) (ts : list pystr) :
  content <> [] ->
  docx_paragraphs_of_bytes rt content = Returned (map Returned ts) ->
  _extract_docx_text rt None (Some content)
  = match List.concat (map kept_lines ts) with
    | [] => (false, [], py "No text found in DOCX file")
    | lines => (true, join [nl] (map sub_spaces lines), [])
    end.
Proof.
  intros Hc Hp. destruct content as [|b bs]; [congruence|].
  unfold _extract_docx_text, _read_docx. rewrite Hp, accumulate_returned.
  cbn [app]. rewrite finish_kept_lines, kept_lines_pages. reflexivity.
Qed.

End Pages.

(** The text extracted from a PDF whose pages all yield text is made of
    the non-empty stripped lines of the pages, in page order, each with its
    runs of spaces collapsed, joined by newlines; when no page has such a
    line the result is "No text found in PDF file". *)
Theorem pdf_upload_text
    (rt : Runtime) (content : bytes) (tag : pystr) (pages : list pystr) :
  content <> [] -> tag <> [] -> too_large (Some content) = false ->
  str_lower rt tag = py "pdf" ->
  pdf_pages_of_bytes rt content = Returned (map Returned pages) ->
  extract_text_from_file rt None (Some content) (Some tag)
  = match List.concat (map kept_lines pages) with
    | [] => (false, [], py "No text found in PDF file")
    | lines => (true, join [nl] (map sub_spaces lines), [])
    end.
Proof.
  intros Hc Ht Hs Hl Hp.
  rewrite supported_dispatch_pdf by assumption.
  apply pdf_pages_result; assumption.
Qed.

(** A PDF of two pages with untidy text. *)
Lemma pdf_upload_text_witness :
  let pages := [py "  Title  " ++ [nl; nl] ++ py "first   line ";
                py "second page"] in
  let rt := fixture_runtime (Returned (map Returned pages)) in
  extract_text_from_file rt None (Some (bytes_of "%PDF-1.4")) (Some (py "PDF"))
  = (true, py "Title" ++ [nl] ++ py "first line" ++ [nl] ++ py "second page", []).
Proof.
  intros pages rt.
  exact (pdf_upload_text rt (bytes_of "%PDF-1.4") (py "PDF") pages
           ltac:(discriminate) ltac:(discriminate) eq_refl eq_refl eq_refl).
Defined.

(** The same for the paragraphs of a DOCX upload, with "No text found in
    DOCX file". *)
Theorem docx_upload_text
    (rt : Runtime) (content : bytes) (tag : pystr) (paragraphs : list pystr) :
  content <> [] -> tag <> [] -> too_large (Some content) = false ->
  str_lower rt tag = py "docx" ->
  docx_paragraphs_of_bytes rt content = Returned (map Returned paragraphs) ->
  extract_text_from_file rt None (Some content) (Some tag)
  = match List.concat (map kept_lines paragraphs) with
    | [] => (false, [], py "No text found in DOCX file")
    | lines => (true, join [nl] (map sub_spaces lines), [])
    end.
Proof.
  intros Hc Ht Hs Hl Hp.
  rewrite supported_dispatch_docx by assumption.
  apply docx_paragraphs_result; assumption.
Qed.

(** A DOCX of three paragraphs, the second one empty. *)
Lemma docx_upload_text_witness :
  let paragraphs := [py "Heading"; []; py " body  text "] in
  let rt := fixture_runtime (Returned (map Returned paragraphs)) in
  extract_text_from_file rt None (Some (bytes_of "PK")) (Some (py "docx"))
  = (true, py "Heading" ++ [nl] ++ py "body text", []).
Proof.
  intros paragraphs rt.
  exact (docx_upload_text rt (bytes_of "PK") (py "docx") paragraphs
           ltac:(discriminate) ltac:(discriminate) eq_refl eq_refl eq_refl).
Defined.

(** A page without extractable text is not an error and leaves no trace:
    two PDF uploads whose pages differ by one blank page have the same
    result. *)
Theorem pdf_blank_page_ignored
    (rt : Runtime) (content content' : bytes) (tag : pystr)
    (before after : list pystr) (page : pystr) :
  content <> [] -> content' <> [] -> tag <> [] ->
  too_large (Some content) = false -> too_large (Some content') = false ->
  str_lower rt tag = py "pdf" ->
  blank page = true ->
  pdf_pages_of_bytes rt content = Returned (map Returned (before ++ page :: after)) ->
  pdf_pages_of_bytes rt content' = Returned (map Returned (before ++ after)) ->
  extract_text_from_file rt None (Some content) (Some tag)
  = extract_text_from_file rt None (Some content') (Some tag).
Proof.
  intros Hc Hc' Ht Hs Hs' Hl Hb Hp Hp'.
  rewrite !supported_dispatch_pdf by assumption.
  rewrite (pdf_pages_result rt content _ Hc Hp), (pdf_pages_result rt content' _ Hc' Hp').
  rewrite !map_app, !concat_app. cbn [map List.concat].
  rewrite (kept_lines_blank page Hb). reflexivity.
Qed.

(** Pages of text around a page of spaces, and the same without it. *)
Lemma pdf_blank_page_ignored_witness :
  let content := bytes_of "one" ++ [x0c] ++ bytes_of "   " ++ [x0c] ++ bytes_of "two" in
  let content' := bytes_of "one" ++ [x0c] ++ bytes_of "two" in
  extract_text_from_file formfeed_runtime None (Some content) (Some (py "pdf"))
  = extract_text_from_file formfeed_runtime None (Some content') (Some (py "pdf")).
Proof.
  intros content content'.
  exact (pdf_blank_page_ignored formfeed_runtime content content' (py "pdf")
           [py "one"] [py "two"] (py "   ")
           ltac:(discriminate) ltac:(discriminate) ltac:(discriminate)
           eq_refl eq_refl eq_refl eq_refl eq_refl eq_refl).
Defined.

(** When reading a page raises, the upload fails with that page's message:
    the text of the pages before it is dropped and the pages after it are
    not read.  The same holds of the paragraphs of a DOCX upload. *)
Theorem failing_page_fails_document
    (rt : Runtime) (content : bytes) (tag : pystr)
    (before : list pystr) (e : pystr) (after : list (outcome pystr)) :
  content <> [] -> tag <> [] -> too_large (Some content) = false ->
  (str_lower rt tag = py "pdf" ->
   pdf_pages_of_bytes rt content = Returned (map Returned before ++ Raised e :: after) ->
   extract_text_from_file rt None (Some content) (Some tag)
   = (false, [], py "Error reading PDF: " ++ e))
  /\ (str_lower rt tag = py "docx" ->
      docx_paragraphs_of_bytes rt content
      = Returned (map Returned before ++ Raised e :: after) ->
      extract_text_from_file rt None (Some content) (Some tag)
      = (false, [], py "Error reading DOCX file: " ++ e)).
Proof.
  intros Hc Ht Hs. split; intros Hl Hp.
  - rewrite supported_dispatch_pdf by assumption.
    destruct content as [|b bs]; [congruence|].
    unfold _extract_pdf_text, _read_pdf. rewrite Hp, accumulate_raised. reflexivity.
  - rewrite supported_dispatch_docx by assumption.
    destruct content as [|b bs]; [congruence|].
    unfold _extract_docx_text, _read_docx. rewrite Hp, accumulate_raised. reflexivity.
Qed.

(** A document whose second page cannot be read. *)
Lemma failing_page_fails_document_witness :
  let doc := Returned [Returned (py "page one"); Raised (py "bad xref");
                       Returned (py "page three")] in
  let rt := fixture_runtime doc in
  extract_text_from_file rt None (Some (bytes_of "%PDF")) (Some (py "pdf"))
  = (false, [], py "Error reading PDF: bad xref")
  /\ extract_text_from_file rt None (Some (bytes_of "PK")) (Some (py "docx"))
     = (false, [], py "Error reading DOCX file: bad xref").
Proof.
  intros doc rt. split.
  - exact (proj1 (failing_page_fails_document rt (bytes_of "%PDF") (py "pdf")
                    [py "page one"] (py "bad xref") [Returned (py "page three")]
                    ltac:(discriminate) ltac:(discriminate) eq_refl)
             eq_refl eq_refl).
  - exact (proj2 (failing_page_fails_document rt (bytes_of "PK") (py "docx")
                    [py "page one"] (py "bad xref") [Returned (py "page three")]
                    ltac:(discriminate) ltac:(discriminate) eq_refl)
             eq_refl eq_refl).
Defined.

(** A plain-text upload is decoded as UTF-8 and, where that fails, by the
    first of Latin-1, ASCII and CP-1252 that succeeds; the result for
    non-blank text is the cleaned text. *)
Theorem txt_upload_text
    (rt : Runtime) (content : bytes) (tag : pystr) (raw : pystr) :
  content <> [] -> tag <> [] -> too_large (Some content) = false ->
  str_lower rt tag = py "txt" ->
  decode rt utf_8 content = Some raw
  \/ (decode rt utf_8 content = None
      /\ first_decodable rt [latin_1; ascii_enc; cp1252] content = Some raw) ->
  blank raw = false ->
  extract_text_from_file rt None (Some content) (Some tag)
  = (true, _clean_text raw, []).
Proof.
  intros Hc Ht Hs Hl Hd Hb.
  rewrite supported_dispatch_txt by assumption.
  assert (Hr : _read_txt rt None (Some content) = inr raw).
  { destruct content as [|b bs]; [congruence|].
    unfold _read_txt. destruct Hd as [->|[-> ->]]; reflexivity. }
  unfold _extract_txt_text. rewrite Hr. rewrite finish_kept_lines.
  rewrite clean_as_kept_lines, sub_spaces_join.
  destruct (kept_lines raw) as [|k K] eqn:EK; [|reflexivity].
  exfalso.
  assert (E : _clean_text raw = []) by (rewrite clean_as_kept_lines, EK; reflexivity).
  pose proof (split_ws_clean_text raw) as Hw. rewrite E in Hw.
  symmetry in Hw. apply split_ws_nil_blank in Hw. congruence.
Qed.

(** The upload "Line one", two empty lines, "Line two  with   extra
    spaces". *)
Lemma txt_upload_text_witness :
  let lines := [py "Line one"; []; []; py "Line two  with   extra spaces"; []] in
  let content := map (fun c => match Byte.of_N c with Some b => b | None => x00 end)
                     (join [nl] lines) in
  extract_text_from_file (fixture_runtime image_only_document)
    None (Some content) (Some (py "txt"))
  = (true, py "Line one" ++ [nl] ++ py "Line two with extra spaces", []).
Proof.
  intros lines content.
  exact (txt_upload_text (fixture_runtime image_only_document) content (py "txt")
           (join [nl] lines)
           ltac:(discriminate) ltac:(discriminate) eq_refl eq_refl
           (or_introl eq_refl) eq_refl).
Defined.

(** A plain-text upload fails with "Unable to decode text file with common
    encodings" exactly when all four decoders refuse the bytes. *)
Theorem txt_upload_undecodable
    (rt : Runtime) (content : bytes) (tag : pystr) :
  content <> [] -> tag <> [] -> too_large (Some content) = false ->
  str_lower rt tag = py "txt" ->
  (extract_text_from_file rt None (Some content) (Some tag)
   = (false, [], py "Unable to decode text file with common encodings")
   <-> (decode rt utf_8 content = None /\ decode rt latin_1 content = None
        /\ decode rt ascii_enc content = None /\ decode rt cp1252 content = None)).
Proof.
  intros Hc Ht Hs Hl.
  rewrite supported_dispatch_txt by assumption.
  destruct content as [|b bs]; [congruence|].
  unfold _extract_txt_text, _read_txt. cbn [first_decodable].
  assert (Hf : forall raw,
             finish (py "No text found in file") raw
             <> (false, [], py "Unable to decode text file with common encodings")).
  { intros raw. rewrite finish_kept_lines. destruct (kept_lines raw); discriminate. }
  destruct (decode rt utf_8 (b :: bs)) as [t|];
    [split; [intro H; apply Hf in H; contradiction|intros (H & _); discriminate]|].
  destruct (decode rt latin_1 (b :: bs)) as [t|];
    [split; [intro H; apply Hf in H; contradiction|intros (_ & H & _); discriminate]|].
  destruct (decode rt ascii_enc (b :: bs)) as [t|];
    [split; [intro H; apply Hf in H; contradiction|intros (_ & _ & H & _); discriminate]|].
  destruct (decode rt cp1252 (b :: bs)) as [t|];
    [split; [intro H; apply Hf in H; contradiction|intros (_ & _ & _ & H); discriminate]|].
  split; auto.
Qed.

(** Bytes that are not UTF-8 in the test runtime but decode as Latin-1:
    the upload does not fail as undecodable. *)
Lemma txt_upload_undecodable_witness :
  let rt := fixture_runtime image_only_document in
  let content := bytes_of "caf" ++ [xe9] in
  extract_text_from_file rt None (Some content) (Some (py "txt"))
  = (false, [], py "Unable to decode text file with common encodings")
  <-> (decode rt utf_8 content = None /\ decode rt latin_1 content = None
       /\ decode rt ascii_enc content = None /\ decode rt cp1252 content = None).
Proof.
  intros rt content.
  exact (txt_upload_undecodable rt content (py "txt")
           ltac:(discriminate) ltac:(discriminate) eq_refl eq_refl).
Defined.

Section ExtractedStats.

Lemma nonblank_has_token (t : pystr) : blank t = false -> 1 <= List.length (split_ws t).
Proof.
  intro H. destruct (split_ws t) eqn:E; [|simpl; lia].
  apply split_ws_nil_blank in E. congruence.
Qed.

Lemma cleaned_nonblank_stats (t : pystr) :
  _clean_text t = t -> blank t = false ->
  1 <= character_count (get_text_stats t)
  /\ 1 <= word_count (get_text_stats t)
  /\ 1 <= line_count (get_text_stats t)
  /\ paragraph_count (get_text_stats t) = 1.
Proof.
  intros Hc Hb.
  assert (Hne : t <> []) by (intros ->; discriminate).
  destruct (clean_shape t) as (L & E & HL). rewrite Hc in E.
  assert (HLne : L <> []) by (intros ->; apply Hne; exact E).
  pose proof (tidy_join_one_paragraph L HL HLne) as Hp. rewrite <- E in Hp.
  pose proof (nonblank_has_token t Hb) as Hw.
  destruct t as [|c r]; [congruence|].
  cbn [get_text_stats character_count word_count line_count paragraph_count].
  rewrite Hp. cbn [filter].
  assert (Hs : strip (c :: r) <> []).
  { intro Hs. apply strip_nil_blank in Hs. congruence. }
  apply negb_str_eqb_nil in Hs. rewrite Hs.
  rewrite split_char_length. cbn [List.length]. repeat split; lia.
Qed.

End ExtractedStats.

(** The statistics the front end computes of successfully extracted text
    count at least one character, one word and one line, and exactly one
    paragraph. *)
Theorem extracted_text_stats
    (rt : Runtime) (file_path : option pystr) (file_content : option bytes)
    (file_type : option pystr) :
  let r := extract_text_from_file rt file_path file_content file_type in
  ok r = true ->
  1 <= character_count (get_text_stats (text_of r))
  /\ 1 <= word_count (get_text_stats (text_of r))
  /\ 1 <= line_count (get_text_stats (text_of r))
  /\ paragraph_count (get_text_stats (text_of r)) = 1.
Proof.
  intros r Hok.
  destruct (extract_well_shaped rt file_path file_content file_type)
    as [(_ & _ & Hc & Hb)|(Hf & _)].
  - apply cleaned_nonblank_stats; assumption.
  - fold r in Hf. congruence.
Qed.

(** A text file of three paragraphs. *)
Lemma extracted_text_stats_witness :
  let rt := fixture_runtime image_only_document in
  let r := extract_text_from_file rt None
             (Some (bytes_of "one two" ++ [x0a; x0a] ++ bytes_of "three" ++ [x0a; x0a]
                      ++ bytes_of "four"))
             (Some (py "txt")) in
  ok r = true
  /\ 1 <= character_count (get_text_stats (text_of r))
  /\ 1 <= word_count (get_text_stats (text_of r))
  /\ 1 <= line_count (get_text_stats (text_of r))
  /\ paragraph_count (get_text_stats (text_of r)) = 1.
Proof.
  intros rt r.
  assert (H : ok r = true) by reflexivity.
  split; [exact H|].
  exact (extracted_text_stats rt None _ (Some (py "txt")) H).
Defined.

Section DeadBranch.

Variable rt : Runtime.

Lemma finish_not_unimplemented (no_text raw : pystr) :
  (forall x, no_text <> py "Extraction method not implemented for " ++ x) ->
  not_unimplemented (finish no_text raw).
Proof.
  intros H x. rewrite finish_kept_lines.
  destruct (kept_lines raw); cbn [error_of snd]; [apply H|discriminate].
Qed.

Lemma supported_is_dispatched (t : pystr) :
  str_in t Config.SUPPORTED_FILE_TYPES = true ->
  str_eqb t (py "pdf") = true \/ str_eqb t (py "txt") = true
  \/ str_eqb t (py "docx") = true.
Proof.
  unfold str_in, Config.SUPPORTED_FILE_TYPES. cbn [existsb].
  rewrite !orb_true_iff. intuition discriminate.
Qed.

Lemma extract_not_unimplemented fp fc ft :
  not_unimplemented (extract_text_from_file rt fp fc ft).
Proof.
  unfold extract_text_from_file.
  destruct (determine_file_type rt fp fc ft) as [t|];
    [|intros x; cbn; discriminate].
  destruct (str_in t Config.SUPPORTED_FILE_TYPES) eqn:Ein; cbn [negb];
    [|intros x; cbn; discriminate].
  destruct (too_large fc); [intros x; cbn; discriminate|].
  destruct (str_eqb t (py "pdf")) eqn:E1.
  { unfold _extract_pdf_text. destruct (_read_pdf rt fp fc) as [r|raw] eqn:E.
    - destruct (read_pdf_failure _ _ _ _ E) as [e ->]. intros x; cbn; discriminate.
    - apply finish_not_unimplemented. intros x; cbn; discriminate. }
  destruct (str_eqb t (py "txt")) eqn:E2.
  { unfold _extract_txt_text. destruct (_read_txt rt fp fc) as [r|raw] eqn:E.
    - destruct (read_txt_failure _ _ _ _ E) as [[e ->]| ->]; intros x; cbn; discriminate.
    - apply finish_not_unimplemented. intros x; cbn; discriminate. }
  destruct (str_eqb t (py "docx")) eqn:E3.
  { unfold _extract_docx_text. destruct (_read_docx rt fp fc) as [r|raw] eqn:E.
    - destruct (read_docx_failure _ _ _ _ E) as [e ->]. intros x; cbn; discriminate.
    - apply finish_not_unimplemented. intros x; cbn; discriminate. }
  destruct (supported_is_dispatched t Ein) as [H|[H|H]]; congruence.
Qed.

End DeadBranch.

(** Every supported type has an extractor: no input makes
    [extract_text_from_file] answer "Extraction method not implemented". *)
Theorem extraction_method_always_implemented
    (rt : Runtime) (file_path : option pystr) (file_content : option bytes)
    (file_type : option pystr) (x : pystr) :
  error_of (extract_text_from_file rt file_path file_content file_type)
  <> py "Extraction method not implemented for " ++ x.
Proof. apply extract_not_unimplemented. Qed.

(** * Further properties of the completion client *)

Section ClientRequests.

Variable tr : Transport.
Variable self : LLMClient.

Lemma generate_response_sent (prompt : pystr) (m : option pystr)
    (t : option QArith_base.Q) (k : option Z) :
  snd (generate_response tr self prompt m t k)
  = if client self then [request_of self prompt m t k] else [].
Proof.
  unfold generate_response, bind, post, ret.
  destruct (client self); cbn [negb]; [|reflexivity].
  destruct (tr (request_of self prompt m t k)) as [resp|e]; [|reflexivity].
  destruct (status_code resp =? 200)%Z; [|reflexivity].
  destruct (content resp); reflexivity.
Qed.

Lemma generate_response_value (prompt : pystr) (m : option pystr)
    (t : option QArith_base.Q) (k : option Z) (resp : Response) (s : pystr) :
  client self = true ->
  tr (request_of self prompt m t k) = Returned resp ->
  status_code resp = 200%Z -> content resp = Returned s ->
  fst (generate_response tr self prompt m t k) = s.
Proof.
  intros Hc Htr Hst Hco. unfold generate_response, bind, post, ret.
  rewrite Hc, Htr, Hst, Hco. reflexivity.
Qed.

Lemma marked_contains (s : pystr) :
  failure_marked s = true -> contains [cross_mark] s = true.
Proof.
  unfold failure_marked. destruct s as [|c r]; [discriminate|].
  cbn [contains]. intros ->. reflexivity.
Qed.

End ClientRequests.

Section Contains.

Lemma contains_prefix (x b : pystr) : contains x (x ++ b) = true.
Proof.
  destruct (x ++ b) eqn:E; cbn [contains]; rewrite <- E, contains_here; reflexivity.
Qed.

Lemma contains_app_l (x a s : pystr) :
  contains x s = true -> contains x (a ++ s) = true.
Proof.
  intro H. induction a as [|c a IH]; [exact H|].
  change ((c :: a) ++ s) with (c :: (a ++ s)).
  cbn [contains]. rewrite IH. apply orb_true_r.
Qed.

End Contains.

Ltac find_in_prompt :=
  repeat first [apply contains_prefix | apply contains_app_l].

(** Every operation of the client sends exactly one request when the
    client is enabled and none when it is disabled: nothing is retried. *)
Theorem one_request_per_operation (tr : Transport) (self : LLMClient) :
  let n := if client self then 1 else 0 in
  (forall prompt m t k,
      List.length (snd (generate_response tr self prompt m t k)) = n)
  /\ (forall text max_length,
         List.length (snd (summarize_text tr self text max_length)) = n)
  /\ (forall context question,
         List.length (snd (answer_question tr self context question)) = n)
  /\ List.length (snd (test_connection tr self)) = n.
Proof.
  intro n. subst n.
  assert (G : forall prompt m t k,
             List.length (snd (generate_response tr self prompt m t k))
             = if client self then 1 else 0).
  { intros. rewrite generate_response_sent. destruct (client self); reflexivity. }
  repeat split.
  - exact G.
  - intros. unfold summarize_text.
    destruct (client self) eqn:Ec; cbn [negb]; [|reflexivity].
    rewrite G, ?Ec. reflexivity.
  - intros. unfold answer_question.
    destruct (client self) eqn:Ec; cbn [negb]; [|reflexivity].
    rewrite G, ?Ec. reflexivity.
  - unfold test_connection.
    destruct (client self) eqn:Ec; cbn [negb]; [|reflexivity].
    unfold bind, ret.
    match goal with
    | |- context [generate_response tr self ?p ?m ?t ?k] =>
        pose proof (G p m t k) as Hg;
        destruct (generate_response tr self p m t k) as [out sent]
    end.
    rewrite ?Ec in Hg. cbn [snd] in Hg.
    destruct (negb (contains [cross_mark] out)); cbn [snd];
      rewrite app_nil_r; exact Hg.
Qed.

(** On an enabled client [summarize_text] sends one request: to the
    client's default model, with temperature 0.1, a single user message
    that contains the text and the word limit, and a token limit of the
    word limit plus 50 (the configured 4000 when that sum is 0). *)
Theorem summarize_text_request
    (tr : Transport) (self : LLMClient) (text : pystr) (max_length : Z) :
  client self = true ->
  exists prompt,
    snd (summarize_text tr self text max_length)
    = [{| url := api_url self;
          headers_of := headers self;
          json := {| model := default_model self;
                     messages := [(py "user", prompt)];
                     temperature := QArith_base.Qmake 1 10;
                     max_tokens := if (max_length + 50 =? 0)%Z then 4000%Z
                                   else (max_length + 50)%Z |};
          timeout := 30 |}]
    /\ contains text prompt = true
    /\ contains (str_of_Z max_length) prompt = true.
Proof.
  intro Hc. unfold summarize_text. rewrite Hc. cbn [negb].
  eexists. rewrite generate_response_sent, Hc.
  split; [reflexivity|]. split; find_in_prompt.
Qed.

(** A summary of at most 100 words asks for 150 tokens. *)
Lemma summarize_text_request_witness :
  let self := __init__ None (Some (py "key")) in
  exists prompt,
    snd (summarize_text (echo_transport (py "A summary.")) self (py "Some text.") 100)
    = [{| url := api_url self;
          headers_of := headers self;
          json := {| model := default_model self;
                     messages := [(py "user", prompt)];
                     temperature := QArith_base.Qmake 1 10;
                     max_tokens := 150 |};
          timeout := 30 |}]
    /\ contains (py "Some text.") prompt = true
    /\ contains (py "100") prompt = true.
Proof.
  intro self.
  exact (summarize_text_request (echo_transport (py "A summary.")) self
           (py "Some text.") 100 eq_refl).
Defined.

(** On an enabled client [answer_question] sends one request: to the
    client's default model, with temperature 0.1 and 4000 tokens, and a
    single user message that contains the context and the question. *)
Theorem answer_question_request
    (tr : Transport) (self : LLMClient) (context question : pystr) :
  client self = true ->
  exists prompt,
    snd (answer_question tr self context question)
    = [{| url := api_url self;
          headers_of := headers self;
          json := {| model := default_model self;
                     messages := [(py "user", prompt)];
                     temperature := QArith_base.Qmake 1 10;
                     max_tokens := 4000 |};
          timeout := 30 |}]
    /\ contains context prompt = true
    /\ contains question prompt = true.
Proof.
  intro Hc. unfold answer_question. rewrite Hc. cbn [negb].
  eexists. rewrite generate_response_sent, Hc.
  split; [reflexivity|]. split; find_in_prompt.
Qed.

(** A question about a one-line document. *)
Lemma answer_question_request_witness :
  let self := __init__ (Some (py "key")) None in
  exists prompt,
    snd (answer_question (echo_transport (py "Blue.")) self
           (py "The sky is blue.") (py "What colour is the sky?"))
    = [{| url := api_url self;
          headers_of := headers self;
          json := {| model := default_model self;
                     messages := [(py "user", prompt)];
                     temperature := QArith_base.Qmake 1 10;
                     max_tokens := 4000 |};
          timeout := 30 |}]
    /\ contains (py "The sky is blue.") prompt = true
    /\ contains (py "What colour is the sky?") prompt = true.
Proof.
  intro self.
  exact (answer_question_request (echo_transport (py "Blue.")) self
           (py "The sky is blue.") (py "What colour is the sky?") eq_refl).
Defined.

(** [test_connection] reports success with a message exactly when the
    client is enabled and its probe, a request for at most 50 tokens, is
    answered with status 200 and that message, free of the cross mark. *)
Theorem test_connection_success
    (tr : Transport) (self : LLMClient) (msg : pystr) :
  let probe :=
    request_of self
      (py "Please reply 'Connection test successful' to confirm the API is working.")
      None None (Some 50%Z) in
  max_tokens (json probe) = 50%Z
  /\ (fst (test_connection tr self) = (true, msg)
      <-> client self = true
          /\ exists resp,
               tr probe = Returned resp /\ status_code resp = 200%Z
               /\ content resp = Returned msg
               /\ contains [cross_mark] msg = false).
Proof.
  intro probe. split; [reflexivity|].
  unfold test_connection, generate_response, bind, post, ret.
  destruct (client self); cbn [negb].
  2:{ split; [discriminate|intros [H _]; discriminate]. }
  fold probe.
  destruct (tr probe) as [resp|e] eqn:Etr.
  2:{ split; [discriminate|].
      intros (_ & resp & H & _). discriminate. }
  destruct (status_code resp =? 200)%Z eqn:Est.
  2:{ split; [discriminate|].
      intros (_ & resp' & H & Hst & _). injection H as <-.
      apply Z.eqb_neq in Est. congruence. }
  apply Z.eqb_eq in Est.
  destruct (content resp) as [s|e] eqn:Eco.
  2:{ split; [discriminate|].
      intros (_ & resp' & H & _ & Hco & _). injection H as <-. congruence. }
  cbn [fst]. destruct (contains [cross_mark] s) eqn:Ecs; cbn [negb fst].
  - split; [discriminate|].
    intros (_ & resp' & H & _ & Hco & Hn). injection H as <-.
    rewrite Eco in Hco. injection Hco as <-. congruence.
  - split.
    + intro H. injection H as <-. split; [reflexivity|].
      exists resp. auto.
    + intros (_ & resp' & H & _ & Hco & _). injection H as <-.
      rewrite Eco in Hco. injection Hco as <-. reflexivity.
Qed.

(** The key passed to the constructor wins over the configured key, the
    configured key is used otherwise, and the client is enabled exactly
    when one of them is a non-empty string.  Every request of an enabled
    client goes to the Together chat-completions URL with that key as
    bearer token, a JSON content type and a timeout of 30 seconds. *)
Theorem client_credentials
    (tr : Transport) (config_key api_key : option pystr)
    (prompt : pystr) (m : option pystr) (t : option QArith_base.Q) (k : option Z) :
  let self := __init__ config_key api_key in
  let key := if truthy api_key then api_key else config_key in
  LLM.api_key self = key
  /\ client self = truthy key
  /\ forall req,
       In req (snd (generate_response tr self prompt m t k)) ->
       exists secret,
         key = Some secret
         /\ url req = py "https://api.together.xyz/v1/chat/completions"
         /\ headers_of req = [(py "Authorization", py "Bearer " ++ secret);
                              (py "Content-Type", py "application/json")]
         /\ timeout req = 30%Z.
Proof.
  intros self key. subst self. unfold __init__. fold key.
  destruct key as [[|c s]|] eqn:Ek; cbn [LLM.api_key client truthy].
  - repeat split. intros req Hin. rewrite generate_response_sent in Hin. destruct Hin.
  - repeat split. intros req Hin. rewrite generate_response_sent in Hin.
    cbn [client] in Hin. destruct Hin as [<-|[]].
    exists (c :: s). repeat split.
  - repeat split. intros req Hin. rewrite generate_response_sent in Hin. destruct Hin.
Qed.

(** A model, a temperature and a token limit that the caller supplies and
    Python counts as true are the ones of the request [generate_response]
    sends on an enabled client. *)
Theorem generate_response_supplied
    (tr : Transport) (self : LLMClient) (prompt m : pystr)
    (t : QArith_base.Q) (k : Z) :
  client self = true ->
  m <> [] -> QArith_base.Qnum t <> 0%Z -> k <> 0%Z ->
  map json (snd (generate_response tr self prompt (Some m) (Some t) (Some k)))
  = [{| model := m; messages := [(py "user", prompt)];
        temperature := t; max_tokens := k |}].
Proof.
  intros Hc Hm Ht Hk. rewrite generate_response_sent, Hc. cbn [map].
  rewrite request_of_supplied by assumption. reflexivity.
Qed.

(** A request to another model with temperature 0.7 and 256 tokens. *)
Lemma generate_response_supplied_witness :
  map json
    (snd (generate_response (echo_transport (py "Hello."))
            (__init__ None (Some (py "key"))) (py "Say hello.")
            (Some (py "mistralai/Mixtral-8x7B-Instruct-v0.1"))
            (Some (QArith_base.Qmake 7 10)) (Some 256%Z)))
  = [{| model := py "mistralai/Mixtral-8x7B-Instruct-v0.1";
        messages := [(py "user", py "Say hello.")];
        temperature := QArith_base.Qmake 7 10; max_tokens := 256 |}].
Proof.
  exact (generate_response_supplied (echo_transport (py "Hello."))
           (__init__ None (Some (py "key"))) (py "Say hello.")
           (py "mistralai/Mixtral-8x7B-Instruct-v0.1") (QArith_base.Qmake 7 10) 256
           eq_refl ltac:(discriminate) ltac:(discriminate) ltac:(discriminate)).
Defined.

(** A key argument and a configured key: the argument is the bearer token. *)
Lemma client_credentials_witness :
  let self := __init__ (Some (py "configured")) (Some (py "passed")) in
  LLM.api_key self = Some (py "passed")
  /\ client self = true
  /\ forall req,
       In req (snd (generate_response (echo_transport (py "Hi.")) self (py "Hello")
                      None None None)) ->
       exists secret,
         Some (py "passed") = Some secret
         /\ url req = py "https://api.together.xyz/v1/chat/completions"
         /\ headers_of req = [(py "Authorization", py "Bearer " ++ secret);
                              (py "Content-Type", py "application/json")]
         /\ timeout req = 30%Z.
Proof.
  exact (client_credentials (echo_transport (py "Hi."))
           (Some (py "configured")) (Some (py "passed")) (py "Hello") None None None).
Defined.

(** * The front end *)

Import App.

Section Front.

Variable rt : Runtime.
Variable tr : Transport.
Variable config_key : option pystr.

Lemma fst_bind (A B : Type) (m : IO A) (k : A -> IO B) :
  fst (bind m k) = fst (k (fst m)).
Proof. unfold bind. destruct m as [a sent]. cbn [fst]. destruct (k a). reflexivity. Qed.

Lemma snd_bind (A B : Type) (m : IO A) (k : A -> IO B) :
  snd (bind m k) = snd m ++ snd (k (fst m)).
Proof. unfold bind. destruct m as [a sent]. cbn [fst snd]. destruct (k a). reflexivity. Qed.

Lemma summarize_text_marked (self : LLMClient) (text : pystr) (n : Z) :
  let out := summarize_text tr self text n in
  failure_marked (fst out) = true
  \/ (exists req resp,
        snd out = [req] /\ tr req = Returned resp
        /\ status_code resp = 200%Z /\ content resp = Returned (fst out)).
Proof.
  unfold summarize_text. destruct (client self) eqn:Ec; cbn [negb].
  - pose proof (generate_response_marked tr self) as G.
    match goal with
    | |- context [generate_response tr self ?p ?m ?t ?k] =>
        destruct (G p m t k) as [H|(_ & H)]; [left|right]; exact H
    end.
  - left; reflexivity.
Qed.

Lemma answer_question_marked (self : LLMClient) (context question : pystr) :
  let out := answer_question tr self context question in
  failure_marked (fst out) = true
  \/ (exists req resp,
        snd out = [req] /\ tr req = Returned resp
        /\ status_code resp = 200%Z /\ content resp = Returned (fst out)).
Proof.
  unfold answer_question. destruct (client self) eqn:Ec; cbn [negb].
  - pose proof (generate_response_marked tr self) as G.
    match goal with
    | |- context [generate_response tr self ?p ?m ?t ?k] =>
        destruct (G p m t k) as [H|(_ & H)]; [left|right]; exact H
    end.
  - left; reflexivity.
Qed.



(** *** The document and its statistics *)

Lemma on_extract_consistent name data (s : Session) :
  session_consistent s -> session_consistent (on_extract rt name data s).
Proof.
  intro Hs. unfold on_extract.
  pose proof (extract_well_shaped rt None (Some data)
                (Some (str_lower rt (last (split (py ".") name) [])))) as W.
  destruct (extract_text_from_file rt None (Some data)
              (Some (str_lower rt (last (split (py ".") name) []))))
    as [[success text] error].
  destruct success; [|exact Hs].
  destruct W as [(_ & _ & Hc & Hb)|(Hf & _)]; [|discriminate Hf].
  cbn [text_of fst snd] in Hc, Hb.
  unfold session_consistent. cbn [extracted_text document_stats].
  destruct text as [|c r]; [discriminate Hb|]. auto.
Qed.

Lemma on_summary_document n now (s : Session) :
  extracted_text (fst (on_summary tr config_key n now s)) = extracted_text s
  /\ document_stats (fst (on_summary tr config_key n now s)) = document_stats s.
Proof.
  unfold on_summary. destruct (extracted_text s) eqn:E; [cbn; auto|].
  rewrite fst_bind.
  destruct (negb (contains [cross_mark] _)); cbn; auto.
Qed.

Lemma on_ask_document q now (s : Session) :
  extracted_text (fst (on_ask tr config_key q now s)) = extracted_text s
  /\ document_stats (fst (on_ask tr config_key q now s)) = document_stats s.
Proof.
  unfold on_ask. destruct (extracted_text s) eqn:E; [cbn; auto|].
  destruct q as [|c q]; [cbn; auto|].
  rewrite fst_bind.
  destruct (negb (contains [cross_mark] _)); cbn; auto.
Qed.

Lemma on_clear_document (s : Session) :
  extracted_text (on_clear s) = extracted_text s
  /\ document_stats (on_clear s) = document_stats s.
Proof.
  unfold on_clear. destruct (extracted_text s) eqn:E, (chat_history s) eqn:H;
    cbn [extracted_text document_stats]; rewrite ?E; split; reflexivity.
Qed.

Lemma consistent_same_document (s s' : Session) :
  extracted_text s' = extracted_text s /\ document_stats s' = document_stats s ->
  session_consistent s -> session_consistent s'.
Proof. unfold session_consistent. intros [-> ->]. auto. Qed.

Lemma step_consistent ev (s : Session) :
  session_consistent s -> session_consistent (fst (step rt tr config_key ev s)).
Proof.
  intro Hs. destruct ev as [name data|n now|q now|]; cbn [step].
  - apply on_extract_consistent, Hs.
  - eapply consistent_same_document; [apply on_summary_document|exact Hs].
  - eapply consistent_same_document; [apply on_ask_document|exact Hs].
  - eapply consistent_same_document; [apply on_clear_document|exact Hs].
Qed.

Lemma run_consistent evs (s : Session) :
  session_consistent s -> session_consistent (fst (run rt tr config_key evs s)).
Proof.
  revert s. induction evs as [|ev evs IH]; intros s Hs; [exact Hs|].
  cbn [run]. rewrite fst_bind. apply IH, step_consistent, Hs.
Qed.

End Front.

(** Whatever buttons are pressed, in whatever order, the session holds
    either no document and no statistics, or a document that is cleaned
    and not blank together with the statistics of exactly that document. *)
Theorem session_stays_consistent
    (rt : Runtime) (tr : Transport) (config_key : option pystr)
    (evs : list Event) :
  session_consistent (fst (run rt tr config_key evs initial_session)).
Proof. apply run_consistent. reflexivity. Qed.

Section History.

Variable rt : Runtime.
Variable tr : Transport.
Variable config_key : option pystr.

Lemma from_reply_more sent more e :
  from_reply tr sent e -> from_reply tr (sent ++ more) e.
Proof.
  intros (Hu & req & resp & Hin & H). split; [exact Hu|].
  exists req, resp. split; [apply in_or_app; left; exact Hin|exact H].
Qed.

Lemma Forall_from_reply_more sent more (h : list ChatEntry) :
  Forall (from_reply tr sent) h -> Forall (from_reply tr (sent ++ more)) h.
Proof. intro H. eapply Forall_impl; [|exact H]. intros e; apply from_reply_more. Qed.

Lemma not_marked_of_unmarked (out : pystr) :
  contains [cross_mark] out = false -> failure_marked out = true -> False.
Proof. intros Hc Hm. apply marked_contains in Hm. congruence. Qed.

Lemma step_history sent0 ev (s : Session) :
  Forall (from_reply tr sent0) (chat_history s) ->
  Forall (from_reply tr (sent0 ++ snd (step rt tr config_key ev s)))
         (chat_history (fst (step rt tr config_key ev s))).
Proof.
  intro Hs. destruct ev as [name data|n now|q now|]; cbn [step].
  - cbn [ret fst snd]. rewrite app_nil_r. unfold on_extract.
    destruct (extract_text_from_file _ _ _ _) as [[success text] error].
    destruct success; exact Hs.
  - unfold on_summary. destruct (extracted_text s) as [|c t];
      [cbn [ret fst snd]; rewrite app_nil_r; exact Hs|].
    rewrite fst_bind, snd_bind.
    pose proof (summarize_text_marked tr (__init__ config_key None) (c :: t) n) as M.
    cbv zeta in M.
    destruct (summarize_text tr (__init__ config_key None) (c :: t) n) as [out sent].
    cbn [fst snd] in *.
    destruct (contains [cross_mark] out) eqn:Ec; cbn [negb ret fst snd chat_history];
      rewrite app_nil_r; [apply Forall_from_reply_more, Hs|].
    apply Forall_app. split; [apply Forall_from_reply_more, Hs|].
    constructor; [|constructor].
    destruct M as [M|(req & resp & -> & M)];
      [exfalso; eapply not_marked_of_unmarked; eassumption|].
    split; [exact Ec|]. exists req, resp.
    split; [apply in_or_app; right; left; reflexivity|exact M].
  - unfold on_ask. destruct (extracted_text s) as [|c t];
      [cbn [ret fst snd]; rewrite app_nil_r; exact Hs|].
    destruct q as [|qc q]; [cbn [ret fst snd]; rewrite app_nil_r; exact Hs|].
    rewrite fst_bind, snd_bind.
    pose proof (answer_question_marked tr (__init__ config_key None) (c :: t) (qc :: q))
      as M.
    cbv zeta in M.
    destruct (answer_question tr (__init__ config_key None) (c :: t) (qc :: q))
      as [out sent].
    cbn [fst snd] in *.
    destruct (contains [cross_mark] out) eqn:Ec; cbn [negb ret fst snd chat_history];
      rewrite app_nil_r; [apply Forall_from_reply_more, Hs|].
    apply Forall_app. split; [apply Forall_from_reply_more, Hs|].
    constructor; [|constructor].
    destruct M as [M|(req & resp & -> & M)];
      [exfalso; eapply not_marked_of_unmarked; eassumption|].
    split; [exact Ec|]. exists req, resp.
    split; [apply in_or_app; right; left; reflexivity|exact M].
  - cbn [ret fst snd]. rewrite app_nil_r. unfold on_clear.
    destruct (extracted_text s) eqn:E, (chat_history s) eqn:H; cbn [chat_history];
      rewrite ?H; first [exact Hs | constructor].
Qed.

Lemma run_history evs sent0 (s : Session) :
  Forall (from_reply tr sent0) (chat_history s) ->
  Forall (from_reply tr (sent0 ++ snd (run rt tr config_key evs s)))
         (chat_history (fst (run rt tr config_key evs s))).
Proof.
  revert sent0 s. induction evs as [|ev evs IH]; intros sent0 s Hs.
  - cbn [run ret fst snd]. rewrite app_nil_r. exact Hs.
  - cbn [run]. rewrite fst_bind, snd_bind, app_assoc.
    apply IH, step_history, Hs.
Qed.

Lemma init_client_off :
  truthy config_key = false -> client (__init__ config_key None) = false.
Proof. intro H. apply init_without_credential; [reflexivity|exact H]. Qed.


Lemma step_document_stays ev (s : Session) :
  extracted_text s <> [] ->
  extracted_text (fst (step rt tr config_key ev s)) <> [].
Proof.
  intro Hs. destruct ev as [name data|n now|q now|]; cbn [step ret fst].
  - unfold on_extract.
    pose proof (extract_well_shaped rt None (Some data)
                  (Some (str_lower rt (last (split (py ".") name) [])))) as W.
    destruct (extract_text_from_file rt None (Some data)
                (Some (str_lower rt (last (split (py ".") name) []))))
      as [[success text] error].
    destruct success; [|exact Hs].
    destruct W as [(_ & _ & _ & Hb)|(Hf & _)]; [|discriminate Hf].
    cbn [text_of fst snd extracted_text] in *. intros ->. discriminate Hb.
  - destruct (on_summary_document tr config_key n now s) as [-> _]. exact Hs.
  - destruct (on_ask_document tr config_key q now s) as [-> _]. exact Hs.
  - destruct (on_clear_document s) as [-> _]. exact Hs.
Qed.

End History.

(** Every entry of the chat history, after any sequence of button presses,
    records the content of a reply with status 200 to a request the
    session sent, and that content is free of the cross mark: no failure
    string of the client is ever recorded as a summary or an answer. *)
Theorem chat_history_from_replies
    (rt : Runtime) (tr : Transport) (config_key : option pystr)
    (evs : list Event) :
  let out := run rt tr config_key evs initial_session in
  Forall (from_reply tr (snd out)) (chat_history (fst out)).
Proof.
  intro out. subst out.
  apply (run_history rt tr config_key evs [] initial_session). constructor.
Qed.


(** Once a document has been extracted the session never goes back to
    having none: a failed extraction keeps the document that was there. *)
Theorem session_document_stays
    (rt : Runtime) (tr : Transport) (config_key : option pystr)
    (evs : list Event) (s : Session) :
  extracted_text s <> [] ->
  extracted_text (fst (run rt tr config_key evs s)) <> [].
Proof.
  revert s. induction evs as [|ev evs IH]; intros s Hs; [exact Hs|].
  cbn [run]. rewrite fst_bind. apply IH, step_document_stays, Hs.
Qed.


(** A session with a document, in which an executable is then uploaded. *)
Lemma session_document_stays_witness :
  let s := {| extracted_text := py "some notes";
              document_stats := Some (get_text_stats (py "some notes"));
              chat_history := [] |} in
  let evs := [ExtractText (py "setup.exe") (bytes_of "MZ"); ClearHistory] in
  extracted_text s <> []
  /\ extracted_text
       (fst (run (fixture_runtime image_only_document)
                 (echo_transport (py "An answer.")) None evs s)) <> [].
Proof.
  intros s evs.
  assert (H : extracted_text s <> []) by discriminate.
  split; [exact H|].
  exact (session_document_stays (fixture_runtime image_only_document)
           (echo_transport (py "An answer.")) None evs s H).
Defined.
